(** * OAuth token lifecycle of the fitness agent: token store and auth service

    A shallow embedding of [token_store.py] and [auth.py].  The Python
    functions read and write a JSON file, read the wall clock and POST to the
    providers' token endpoints; here these effects are fields of an explicit
    [World] that every operation threads, and a Python exception is the
    [Raise] outcome of a computation. *)

From Stdlib Require Import ZArith QArith Lqa.
From stdpp Require Import gmap strings list.

Close Scope Q_scope.
Local Open Scope string_scope.
Local Open Scope list_scope.
Local Open Scope Z_scope.

(** ** JSON values and Python's view of them *)

(** What [json.loads] / [response.json()] produce.  JSON numbers are the
    integers (Python [int], unbounded); fractional numbers are outside the
    model.  Arrays and nested objects are carried along but never inspected
    by the code under study. *)
#[local] Set Warnings "-register-all".
Inductive jval : Type :=
  | JNull
  | JBool (b : bool)
  | JNum (z : Z)
  | JStr (s : string)
  | JArr (items : list jval)
  | JObj (fields : list (string * jval)).

(** A JSON object used as a Python [dict] with string keys. *)
Abbreviation jdict := (gmap string jval).

(** Python truthiness, as used by [not x]. *)
Definition truthy (v : jval) : bool :=
  match v with
  | JNull => false
  | JBool b => b
  | JNum z => negb (z =? 0)
  | JStr s => negb (String.eqb s "")
  | JArr items => match items with [] => false | _ => true end
  | JObj fields => match fields with [] => false | _ => true end
  end.

(** The operand of integer arithmetic: an [int], or a [bool] (a subclass of
    [int] in Python).  The other values of the model (null, strings, arrays
    and objects) make [+] and [-] raise [TypeError]; fractional numbers,
    which Python adds and compares without error, are outside the model. *)
Definition as_int (v : jval) : option Z :=
  match v with
  | JNum z => Some z
  | JBool b => Some (if b then 1 else 0)
  | _ => None
  end.

(** [key in d] *)
Definition has_key (k : string) (d : jdict) : bool :=
  match d !! k with Some _ => true | None => false end.

(** A [dict] is falsy exactly when it is empty; [None] is falsy. *)
Definition dict_truthy (d : jdict) : bool :=
  negb (bool_decide (d = ∅)).

Definition opt_dict_truthy (o : option jdict) : bool :=
  match o with Some d => dict_truthy d | None => false end.

(** [not tokens.get("refresh_token")] reads the field with default [None]. *)
Definition opt_truthy (o : option jval) : bool :=
  match o with Some v => truthy v | None => false end.

(** ** Wall clock *)

(** [time.time()] returns a float, i.e. a rational; comparing it with an
    [int] is exact in Python, and [int(t)] truncates toward zero. *)
Definition int_of_time (t : Q) : Z := Z.quot (Qnum t) (Z.pos (Qden t)).

(** [t > z] for a clock reading [t] and an integer [z]. *)
Definition time_gt (t : Q) (z : Z) : bool := z * Z.pos (Qden t) <? Qnum t.

(** ** Exceptions and outcomes *)

Inductive exn : Type :=
  | KeyError (key : string)
  | TypeError
  | ValueError (msg : string)
  | HTTPStatusError (status : Z)
  | TransportError
  | JSONDecodeError
  | HTTPException (status : Z) (detail : string).

Inductive Result (A : Type) : Type :=
  | Ok (a : A)
  | Raise (e : exn).
Arguments Ok {A} a.
Arguments Raise {A} e.

(** ** HTTP *)

(** A form-encoded POST: the URL and the [data=] payload in insertion order. *)
Record Request : Type := mkRequest {
  req_url : string;
  req_data : list (string * jval);
}.

(** What the network answers: a response with its status code and its body
    (the JSON object it decodes to, if it does), or no response at all. *)
Inductive HttpOutcome : Type :=
  | Response (status_code : Z) (body : option jdict)
  | NoResponse.

(** ** The world the program runs in *)

Record World : Type := mkWorld {
  (** contents of [STORE_PATH]; [None] while the file does not exist *)
  store_file : option (gmap string jdict);
  (** successive readings of [time.time()] and how many were taken *)
  clock : nat → Q;
  ticks : nat;
  (** the answer to the n-th outbound POST, and the POSTs made so far *)
  responses : nat → HttpOutcome;
  posts : list Request;
  (** ghost: providers for which [refresh_tokens] was entered, oldest first *)
  refresh_calls : list string;
}.

Definition set_store_file (s : option (gmap string jdict)) (w : World) : World :=
  mkWorld s (clock w) (ticks w) (responses w) (posts w) (refresh_calls w).

Definition tick (w : World) : World :=
  mkWorld (store_file w) (clock w) (S (ticks w)) (responses w) (posts w) (refresh_calls w).

Definition log_post (r : Request) (w : World) : World :=
  mkWorld (store_file w) (clock w) (ticks w) (responses w) (posts w ++ [r]) (refresh_calls w).

Definition log_refresh (p : string) (w : World) : World :=
  mkWorld (store_file w) (clock w) (ticks w) (responses w) (posts w) (refresh_calls w ++ [p]).

(** The persisted collection as the program sees it. *)
Definition stored (w : World) : gmap string jdict := default ∅ (store_file w).

(** ** The state-and-exception monad *)

Definition M (A : Type) : Type := World → Result A * World.

Definition ret {A} (a : A) : M A := λ w, (Ok a, w).

Definition raise {A} (e : exn) : M A := λ w, (Raise e, w).

Definition bind {A B} (c : M A) (k : A → M B) : M B :=
  λ w, match c w with
       | (Ok a, w') => k a w'
       | (Raise e, w') => (Raise e, w')
       end.

Notation "'do' x <- c ; k" := (bind c (λ x, k))
  (at level 10, x name, c at level 100, k at level 200,
   format "'[v' 'do'  x  <-  c ; '/' k ']'").
Notation "'run' c ; k" := (bind c (λ _, k))
  (at level 10, c at level 100, k at level 200,
   format "'[v' 'run'  c ; '/' k ']'").

(** [d[k]] *)
Definition getitem (d : jdict) (k : string) : M jval :=
  match d !! k with Some v => ret v | None => raise (KeyError k) end.

(** [a + b] and [a - b] on integers *)
Definition py_add (a : Z) (v : jval) : M Z :=
  match as_int v with Some z => ret (a + z) | None => raise TypeError end.

Definition py_sub (v : jval) (b : Z) : M Z :=
  match as_int v with Some z => ret (z - b) | None => raise TypeError end.

(** [time.time()] *)
Definition time_time : M Q := λ w, (Ok (clock w (ticks w)), tick w).

(** [client.post(url, data=payload)], [response.raise_for_status()] and
    [response.json()] of httpx: any status outside 200..299 raises. *)
Definition is_success (status : Z) : bool := (200 <=? status) && (status <=? 299).

Definition post_json (url : string) (payload : list (string * jval)) : M jdict :=
  λ w, let w' := log_post (mkRequest url payload) w in
       match responses w (length (posts w)) with
       | NoResponse => (Raise TransportError, w')
       | Response status body =>
           if is_success status then
             match body with
             | Some d => (Ok d, w')
             | None => (Raise JSONDecodeError, w')
             end
           else (Raise (HTTPStatusError status), w')
       end.

(** ** Configuration ([config.py]) *)

Record Settings : Type := mkSettings {
  strava_client_id : string;
  strava_client_secret : string;
  strava_auth_url : string;
  strava_token_url : string;
  strava_scopes : string;
  whoop_client_id : string;
  whoop_client_secret : string;
  whoop_auth_url : string;
  whoop_token_url : string;
  whoop_scopes : string;
  app_base_url : string;
}.

(** The values of [Settings()] when the environment overrides nothing. *)
Definition default_settings : Settings := {|
  strava_client_id := "";
  strava_client_secret := "";
  strava_auth_url := "https://www.strava.com/oauth/authorize";
  strava_token_url := "https://www.strava.com/oauth/token";
  strava_scopes := "read,activity:read_all";
  whoop_client_id := "";
  whoop_client_secret := "";
  whoop_auth_url := "https://api.prod.whoop.com/oauth/oauth2/auth";
  whoop_token_url := "https://api.prod.whoop.com/oauth/oauth2/token";
  whoop_scopes := "read:recovery read:sleep read:workout read:profile read:body_measurement";
  app_base_url := "http://localhost:8000";
|}.

(** One entry of [PROVIDERS]; the two credentials are lambdas in the source. *)
Record ProviderCfg : Type := mkProviderCfg {
  client_id : unit → string;
  client_secret : unit → string;
  auth_url : string;
  token_url : string;
  scopes : string;
  scope_separator : string;
}.

(** ** Token store ([token_store.py]) *)

Definition _load_store : M (gmap string jdict) :=
  λ w, (Ok (stored w), w).

Definition _save_store (store : gmap string jdict) : M unit :=
  λ w, (Ok tt, set_store_file (Some store) w).

(** [save_tokens] mutates the [token_data] it is given (it may add
    [expires_at]); the dict as the caller sees it afterwards is returned. *)
Definition save_tokens (provider : string) (token_data : jdict) : M jdict :=
  do store <- _load_store;
  do token_data <-
    (if negb (has_key "expires_at" token_data) && has_key "expires_in" token_data
     then
       do now <- time_time;
       do expires_in <- getitem token_data "expires_in";
       do expires_at <- py_add (int_of_time now) expires_in;
       ret (<["expires_at" := JNum expires_at]> token_data)
     else ret token_data);
  do access_token <- getitem token_data "access_token";
  do refresh_token <- getitem token_data "refresh_token";
  let record : jdict :=
    {[ "access_token" := access_token;
       "refresh_token" := refresh_token;
       "expires_at" := default (JNum 0) (token_data !! "expires_at") ]} in
  run _save_store (<[provider := record]> store);
  ret token_data.

Definition get_tokens (provider : string) : M (option jdict) :=
  do store <- _load_store;
  ret (store !! provider).

Definition is_token_expired (provider : string) : M bool :=
  do tokens <- get_tokens provider;
  match tokens with
  | Some tokens =>
      if negb (dict_truthy tokens) then ret true
      else
        do now <- time_time;
        do expires_at <- getitem tokens "expires_at";
        do limit <- py_sub expires_at 300;
        ret (time_gt now limit)
  | None => ret true
  end.

Definition delete_tokens (provider : string) : M unit :=
  do store <- _load_store;
  _save_store (delete provider store).

(** ** OAuth service ([auth.py]) *)

Section Auth.

Variable settings : Settings.

Definition strava_cfg : ProviderCfg :=
  {| client_id := λ _, strava_client_id settings;
     client_secret := λ _, strava_client_secret settings;
     auth_url := strava_auth_url settings;
     token_url := strava_token_url settings;
     scopes := strava_scopes settings;
     scope_separator := "," |}.

Definition whoop_cfg : ProviderCfg :=
  {| client_id := λ _, whoop_client_id settings;
     client_secret := λ _, whoop_client_secret settings;
     auth_url := whoop_auth_url settings;
     token_url := whoop_token_url settings;
     scopes := whoop_scopes settings;
     scope_separator := " " |}.

Definition PROVIDERS : gmap string ProviderCfg :=
  {[ "strava" := strava_cfg; "whoop" := whoop_cfg ]}.

(** [PROVIDERS[provider]] *)
Definition provider_cfg (provider : string) : M ProviderCfg :=
  match PROVIDERS !! provider with
  | Some cfg => ret cfg
  | None => raise (KeyError provider)
  end.

(** [f"{settings.app_base_url}/auth/{provider}/callback"] *)
Definition redirect_uri_for (provider : string) : string :=
  app_base_url settings +:+ "/auth/" +:+ provider +:+ "/callback".

Definition get_authorize_url (provider : string) : M string :=
  do cfg <- provider_cfg provider;
  let redirect_uri := redirect_uri_for provider in
  let params :=
    [ ("client_id", client_id cfg ());
      ("redirect_uri", redirect_uri);
      ("response_type", "code");
      ("scope", scopes cfg) ] in
  let query := String.concat "&" (map (λ kv, fst kv +:+ "=" +:+ snd kv) params) in
  ret (auth_url cfg +:+ "?" +:+ query).

Definition exchange_code_for_tokens (provider code : string) : M jdict :=
  do cfg <- provider_cfg provider;
  let redirect_uri := redirect_uri_for provider in
  let payload :=
    [ ("client_id", JStr (client_id cfg ()));
      ("client_secret", JStr (client_secret cfg ()));
      ("code", JStr code);
      ("grant_type", JStr "authorization_code");
      ("redirect_uri", JStr redirect_uri) ] in
  do token_data <- post_json (token_url cfg) payload;
  save_tokens provider token_data.

Definition no_refresh_token_msg (provider : string) : string :=
  "No refresh token stored for " +:+ provider +:+ ". Re-authenticate.".

Definition not_authenticated_msg (provider : string) : string :=
  "Not authenticated with " +:+ provider +:+ ". Visit /auth/" +:+ provider +:+ "/login".

(** ghost step: remember that [refresh_tokens] was entered *)
Definition enter_refresh (provider : string) : M unit :=
  λ w, (Ok tt, log_refresh provider w).

Definition refresh_tokens (provider : string) : M jdict :=
  run enter_refresh provider;
  do cfg <- provider_cfg provider;
  do tokens <- get_tokens provider;
  match tokens with
  | None => raise (ValueError (no_refresh_token_msg provider))
  | Some tokens =>
      if negb (dict_truthy tokens) || negb (opt_truthy (tokens !! "refresh_token"))
      then raise (ValueError (no_refresh_token_msg provider))
      else
        do sent <- getitem tokens "refresh_token";
        let payload :=
          [ ("client_id", JStr (client_id cfg ()));
            ("client_secret", JStr (client_secret cfg ()));
            ("grant_type", JStr "refresh_token");
            ("refresh_token", sent) ] in
        do token_data <- post_json (token_url cfg) payload;
        do token_data <-
          (if negb (has_key "refresh_token" token_data)
           then
             do kept <- getitem tokens "refresh_token";
             ret (<["refresh_token" := kept]> token_data)
           else ret token_data);
        save_tokens provider token_data
  end.

Definition get_valid_access_token (provider : string) : M jval :=
  do expired <- is_token_expired provider;
  if expired then
    do token_data <- refresh_tokens provider;
    getitem token_data "access_token"
  else
    do tokens <- get_tokens provider;
    match tokens with
    | Some tokens =>
        if negb (dict_truthy tokens)
        then raise (ValueError (not_authenticated_msg provider))
        else getitem tokens "access_token"
    | None => raise (ValueError (not_authenticated_msg provider))
    end.

End Auth.

(** ** The route layer's guard ([auth_routes.py]) *)

Definition SUPPORTED_PROVIDERS : list string := ["strava"; "whoop"].

Definition _validate_provider (provider : string) : M unit :=
  if bool_decide (provider ∈ SUPPORTED_PROVIDERS) then ret tt
  else raise (HTTPException 400 ("Unknown provider: " +:+ provider)).

(** [GET /auth/{provider}/login]; the redirect is represented by its URL. *)
Definition login (settings : Settings) (provider : string) : M string :=
  run _validate_provider provider;
  get_authorize_url settings provider.

(** The record [save_tokens] writes for a provider. *)
Definition token_record (access_token refresh_token expires_at : jval) : jdict :=
  {[ "access_token" := access_token;
     "refresh_token" := refresh_token;
     "expires_at" := expires_at ]}.

(** The POST of a refresh and of a code exchange. *)
Definition refresh_request (cfg : ProviderCfg) (sent : jval) : Request :=
  mkRequest (token_url cfg)
    [ ("client_id", JStr (client_id cfg ()));
      ("client_secret", JStr (client_secret cfg ()));
      ("grant_type", JStr "refresh_token");
      ("refresh_token", sent) ].

Definition exchange_request (cfg : ProviderCfg) (code redirect_uri : string) : Request :=
  mkRequest (token_url cfg)
    [ ("client_id", JStr (client_id cfg ()));
      ("client_secret", JStr (client_secret cfg ()));
      ("code", JStr code);
      ("grant_type", JStr "authorization_code");
      ("redirect_uri", JStr redirect_uri) ].

(** ** Route handlers ([auth_routes.py]) *)

(** [try: c  except Exception as e: handler e].  Every exception of the
    model is an [Exception]; what [c] did to the world before raising stays
    done. *)
Definition try_except {A} (c : M A) (handler : exn → M A) : M A :=
  λ w, match c w with
       | (Ok a, w') => (Ok a, w')
       | (Raise e, w') => handler e w'
       end.

(** [if s:] for an optional query parameter of type [str | None] *)
Definition param_truthy (s : option string) : bool :=
  match s with
  | Some s => negb (String.eqb s "")
  | None => false
  end.

(** [v[:15] + "..."].  A string is cut to its first 15 characters; on any
    other JSON value the expression raises (a [TypeError]; for a nested
    object Python 3.12 raises [KeyError] instead, which the caller's handler
    treats alike).  Strings are sequences of 8-bit characters here. *)
Definition token_preview (v : jval) : M string :=
  match v with
  | JStr s => ret (String.substring 0 15 s +:+ "...")
  | _ => raise TypeError
  end.

Section Routes.

Variable settings : Settings.

(** [str(e)] for a caught exception; the texts of httpx's exceptions are the
    library's, so the rendering is a parameter. *)
Variable str_exn : exn → string.

(** [GET /auth/{provider}/callback] *)
Definition callback (provider : string) (code error : option string) : M jdict :=
  run _validate_provider provider;
  if param_truthy error then
    ret {[ "status" := JStr "error";
           "provider" := JStr provider;
           "detail" := JStr (default "" error) ]}
  else if negb (param_truthy code) then
    raise (HTTPException 400 "No authorization code received")
  else
    try_except
      (do token_data <- exchange_code_for_tokens settings provider (default "" code);
       do access_token <- getitem token_data "access_token";
       do preview <- token_preview access_token;
       ret {[ "status" := JStr "success";
              "provider" := JStr provider;
              "message" := JStr ("Successfully authenticated with " +:+ provider +:+ "!");
              "token_preview" := JStr preview ]})
      (λ e, raise (HTTPException 500 ("Token exchange failed: " +:+ str_exn e))).

(** [GET /auth/{provider}/status] *)
Definition provider_status (provider : string) : M jdict :=
  run _validate_provider provider;
  do tokens <- get_tokens provider;
  if negb (opt_dict_truthy tokens) then
    ret {[ "provider" := JStr provider;
           "authenticated" := JBool false;
           "message" := JStr "Not connected" ]}
  else
    try_except
      (run get_valid_access_token settings provider;
       ret {[ "provider" := JStr provider;
              "authenticated" := JBool true;
              "message" := JStr "Connected" ]})
      (λ _, ret {[ "provider" := JStr provider;
                   "authenticated" := JBool false;
                   "message" := JStr "Token expired, re-auth needed" ]}).

(** [GET /auth/status]: the body of the [for] loop, then the loop over the
    providers still to visit. *)
Definition all_status_entry (provider : string) : M jdict :=
  do tokens <- get_tokens provider;
  if opt_dict_truthy tokens then
    try_except
      (run get_valid_access_token settings provider;
       ret {[ "authenticated" := JBool true; "message" := JStr "Connected" ]})
      (λ _, ret {[ "authenticated" := JBool false; "message" := JStr "Token expired" ]})
  else
    ret {[ "authenticated" := JBool false; "message" := JStr "Not connected" ]}.

Fixpoint all_status_loop (providers : list string) (results : gmap string jdict)
    : M (gmap string jdict) :=
  match providers with
  | [] => ret results
  | provider :: rest =>
      do entry <- all_status_entry provider;
      all_status_loop rest (<[provider := entry]> results)
  end.

Definition all_status : M (gmap string jdict) :=
  all_status_loop SUPPORTED_PROVIDERS ∅.

(** [GET /auth/{provider}/logout] *)
Definition logout (provider : string) : M jdict :=
  run _validate_provider provider;
  run delete_tokens provider;
  ret {[ "provider" := JStr provider; "message" := JStr "Tokens removed" ]}.

End Routes.

(** ** Strava client ([app/clients/strava.py]) *)

(** An authenticated GET.  The header [Authorization: Bearer {token}] is
    represented by the token it embeds. *)
Record GetRequest : Type := mkGetRequest {
  get_url : string;
  get_bearer : jval;
  get_params : list (string * jval);
}.

Inductive GetOutcome : Type :=
  | GetResponse (status_code : Z) (body : option jval)
  | GetNoResponse.

(** The world of the API client: the world of the token service, the answer
    to the n-th GET and the GETs made so far. *)
Record ApiWorld : Type := mkApiWorld {
  auth_world : World;
  get_answers : nat → GetOutcome;
  gets : list GetRequest;
}.

Definition Api (A : Type) : Type := ApiWorld → Result A * ApiWorld.

Definition api_ret {A} (a : A) : Api A := λ aw, (Ok a, aw).

Definition api_raise {A} (e : exn) : Api A := λ aw, (Raise e, aw).

Definition api_bind {A B} (c : Api A) (k : A → Api B) : Api B :=
  λ aw, match c aw with
        | (Ok a, aw') => k a aw'
        | (Raise e, aw') => (Raise e, aw')
        end.

Notation "'doa' x <- c ; k" := (api_bind c (λ x, k))
  (at level 10, x name, c at level 100, k at level 200,
   format "'[v' 'doa'  x  <-  c ; '/' k ']'").

(** A computation of the token service, run on the client's world. *)
Definition lift_auth {A} (c : M A) : Api A :=
  λ aw, let '(r, w') := c (auth_world aw) in
        (r, mkApiWorld w' (get_answers aw) (gets aw)).

Definition BASE_URL : string := "https://www.strava.com/api/v3".

(** [client.get(url, headers=..., params=...)], [raise_for_status()] and
    [json()] *)
Definition get_json (url : string) (token : jval) (params : list (string * jval))
    : Api jval :=
  λ aw, let aw' := mkApiWorld (auth_world aw) (get_answers aw)
                     (gets aw ++ [mkGetRequest url token params]) in
        match get_answers aw (length (gets aw)) with
        | GetNoResponse => (Raise TransportError, aw')
        | GetResponse status body =>
            if is_success status then
              match body with
              | Some v => (Ok v, aw')
              | None => (Raise JSONDecodeError, aw')
              end
            else (Raise (HTTPStatusError status), aw')
        end.

(** [list.extend(batch)]: the elements [batch] yields when iterated (the
    items of a list, the keys of an object, the characters of a string);
    numbers, booleans and null are not iterable. *)
Definition py_iter (batch : jval) : Api (list jval) :=
  match batch with
  | JArr items => api_ret items
  | JObj fields => api_ret (map (λ kv, JStr (fst kv)) fields)
  | JStr s => api_ret (map (λ c, JStr (String c EmptyString)) (String.list_ascii_of_string s))
  | _ => api_raise TypeError
  end.

(** [len(batch)] *)
Definition py_len (batch : jval) : Api Z :=
  match batch with
  | JArr items => api_ret (Z.of_nat (length items))
  | JObj fields => api_ret (Z.of_nat (length fields))
  | JStr s => api_ret (Z.of_nat (String.length s))
  | _ => api_raise TypeError
  end.

Section Strava.

Variable settings : Settings.

(** [int((datetime.now(timezone.utc) - timedelta(days=days)).timestamp())]
    as a function of the clock reading and [days]: the arithmetic is the
    datetime library's, which raises for dates outside its range, so it is
    a parameter. *)
Variable cutoff : Q → Z → Result Z.

Definition _get (endpoint : string) (params : list (string * jval)) : Api jval :=
  doa token <- lift_auth (get_valid_access_token settings "strava");
  get_json (BASE_URL +:+ endpoint) token params.

Definition get_athlete : Api jval := _get "/athlete" [].

(** [datetime.now(timezone.utc)] is one more reading of the wall clock. *)
Definition get_activities (days per_page page : Z) : Api jval :=
  doa now <- lift_auth time_time;
  doa after <- (λ aw, (cutoff now days, aw));
  _get "/athlete/activities"
    [ ("after", JNum after); ("per_page", JNum per_page); ("page", JNum page) ].

(** The [while True] loop of [get_all_activities], run for at most [fuel]
    pages; [None] says the loop was still going when the fuel ran out. *)
Fixpoint get_all_activities_loop (fuel : nat) (days : Z)
    (all_activities : list jval) (page : Z) : Api (option (list jval)) :=
  match fuel with
  | O => api_ret None
  | S fuel =>
      doa batch <- get_activities days 200 page;
      if negb (truthy batch) then api_ret (Some all_activities)
      else
        doa items <- py_iter batch;
        let all_activities := all_activities ++ items in
        doa n <- py_len batch;
        if n <? 200 then api_ret (Some all_activities)
        else get_all_activities_loop fuel days all_activities (page + 1)
  end.

Definition get_all_activities (fuel : nat) (days : Z) : Api (option (list jval)) :=
  get_all_activities_loop fuel days [] 1.

End Strava.

(** ** Footprints *)

(** The footprint of a service call for [provider]: at most one POST is
    added, the records of the other providers stay, and the store file is
    untouched when the call raises. *)
Definition footprint {A} (provider : string) (w : World) (r : Result A) (w' : World) : Prop :=
  (∃ new, posts w' = posts w ++ new ∧ (length new ≤ 1)%nat) ∧
  (∀ other, other ≠ provider → stored w' !! other = stored w !! other) ∧
  match r with
  | Raise _ => store_file w' = store_file w
  | Ok _ => True
  end.

(** ** The design's error taxonomy, as the source raises it

    [auth.py] defines no exception classes of its own.  "Not authenticated"
    is a [ValueError]; an upstream non-2xx answer is httpx's
    [HTTPStatusError]; a provider id that is not a key of [PROVIDERS] makes
    the dictionary lookup raise [KeyError]. *)
Definition not_authenticated (e : exn) : bool :=
  match e with ValueError _ => true | _ => false end.

Definition key_lookup_failure (e : exn) : bool :=
  match e with KeyError _ => true | _ => false end.

(** ** Sample worlds *)

(** A clock that reads [t] seconds forever, and a network that answers every
    POST with [answer]. *)
Definition world_at (file : option (gmap string jdict)) (t : Q) (answer : HttpOutcome) : World :=
  mkWorld file (λ _, t) 0 (λ _, answer) [] [].

Definition sample_record : jdict :=
  token_record (JStr "access-1") (JStr "refresh-1") (JNum 1000).

Definition strava_only : gmap string jdict := {[ "strava" := sample_record ]}.

(** Refresh answers: one without and one with a refresh_token. *)
Definition answer_without_refresh_token : jdict :=
  {[ "access_token" := JStr "access-2"; "expires_in" := JNum 3600 ]}.

Definition answer_with_refresh_token : jdict :=
  {[ "access_token" := JStr "access-2"; "expires_in" := JNum 3600;
     "refresh_token" := JStr "refresh-2" ]}.

(** The stored token is long expired and the provider answers the refresh. *)
Definition omitting_world : World :=
  world_at (Some strava_only) (inject_Z 5000) (Response 200 (Some answer_without_refresh_token)).

Definition rotating_world : World :=
  world_at (Some strava_only) (inject_Z 5000) (Response 200 (Some answer_with_refresh_token)).

(** Exactly 300 s before [expires_at = 1000]; the network is down. *)
Definition boundary_world : World :=
  world_at (Some strava_only) (inject_Z 700) NoResponse.

(** 400.5 s before [expires_at = 1000]. *)
Definition valid_world : World :=
  world_at (Some strava_only) (1199 # 2)%Q NoResponse.

(** 100 s before [expires_at = 1000]. *)
Definition expiring_world : World :=
  world_at (Some strava_only) (inject_Z 900) (Response 200 (Some answer_with_refresh_token)).

(** No store file yet; the clock reads 1000.5 and the provider answers the
    code exchange. *)
Definition first_login_world : World :=
  world_at None (2001 # 2)%Q (Response 200 (Some answer_with_refresh_token)).

(** A store file that holds a fresh record under an id [PROVIDERS] lacks. *)
Definition garmin_world : World :=
  world_at (Some {[ "garmin" := sample_record ]}) (inject_Z 0) NoResponse.

(** Token data with no expiry information at all. *)
Definition token_data_without_expiry : jdict :=
  {[ "access_token" := JStr "access-3"; "refresh_token" := JStr "refresh-3" ]}.

(** The values arithmetic rejects: [None], a [str], a [list] or a [dict]
    where a number is expected makes [-] raise [TypeError]. *)
Definition non_numeric (v : jval) : bool :=
  match v with
  | JNull | JStr _ | JArr _ | JObj _ => true
  | JBool _ | JNum _ => false
  end.

(** ** More sample data *)

(** A record whose refresh token is the empty string. *)
Definition spent_world : World :=
  world_at (Some {[ "strava" := token_record (JStr "access-1") (JStr "") (JNum 1000) ]})
    (inject_Z 5000) (Response 200 (Some answer_with_refresh_token)).

(** The provider answers 503 to whatever is posted. *)
Definition failing_world : World :=
  world_at (Some strava_only) (inject_Z 5000) (Response 503 None).

(** A first login answered without a refresh_token. *)
Definition tokenless_login_world : World :=
  world_at None (2001 # 2)%Q (Response 200 (Some answer_without_refresh_token)).

(** A refresh answered with [refresh_token: null]. *)
Definition answer_with_null_refresh_token : jdict :=
  {[ "access_token" := JStr "access-2"; "expires_in" := JNum 3600;
     "refresh_token" := JNull ]}.

Definition nulling_world : World :=
  world_at (Some strava_only) (inject_Z 5000)
    (Response 200 (Some answer_with_null_refresh_token)).

(** A first login answered with a number as access_token. *)
Definition answer_with_numeric_token : jdict :=
  {[ "access_token" := JNum 42; "refresh_token" := JStr "refresh-2" ]}.

Definition numeric_login_world : World :=
  world_at None (2001 # 2)%Q (Response 200 (Some answer_with_numeric_token)).

(** Token data whose expires_at is a string, and token data with one token. *)
Definition token_data_with_text_expiry : jdict :=
  {[ "access_token" := JStr "access-3"; "refresh_token" := JStr "refresh-3";
     "expires_at" := JStr "tomorrow"; "expires_in" := JNum 3600 ]}.

Definition token_data_without_refresh_token : jdict :=
  {[ "access_token" := JStr "access-3" ]}.

(** A rendering of caught exceptions for the sample runs: Python's own for
    [ValueError] and [KeyError], a placeholder for the others. *)
Definition plain_str_exn (e : exn) : string :=
  match e with
  | ValueError msg => msg
  | KeyError key => "'" +:+ key +:+ "'"
  | _ => "error"
  end.

(** The cut-off for dates within the range of datetime: the clock reading
    less [days] days, in whole seconds. *)
Definition epoch_cutoff (now : Q) (days : Z) : Result Z :=
  Ok (int_of_time (now - inject_Z (86400 * days))%Q).

(** A full page, a short page, and a server that sends the full page first
    and the short page ever after, or the full page for ever, or a 500 after
    the full page. *)
Definition full_page : list jval := replicate 200 (JObj [("type", JStr "Ride")]).

Definition short_page : list jval :=
  [ JObj [("type", JStr "Run")]; JObj [("type", JStr "Swim")] ].

Definition api_world_at (w : World) (answers : nat → GetOutcome) : ApiWorld :=
  mkApiWorld w answers [].

Definition paging_world : ApiWorld :=
  api_world_at valid_world
    (λ n, match n with
          | O => GetResponse 200 (Some (JArr full_page))
          | S _ => GetResponse 200 (Some (JArr short_page))
          end).

Definition endless_world : ApiWorld :=
  api_world_at valid_world (λ _, GetResponse 200 (Some (JArr full_page))).

Definition breaking_world : ApiWorld :=
  api_world_at valid_world
    (λ n, match n with
          | O => GetResponse 200 (Some (JArr full_page))
          | S _ => GetResponse 500 None
          end).

Definition logged_out_api_world : ApiWorld :=
  api_world_at first_login_world (λ _, GetResponse 200 (Some (JArr short_page))).

(** * Properties *)

(** ** Token store *)

Lemma stored_set_store_file s w : stored (set_store_file (Some s) w) = s.
Proof. reflexivity. Qed.

Lemma has_key_true k (d : jdict) : has_key k d = true ↔ is_Some (d !! k).
Proof. unfold has_key. destruct (d !! k); split; intros H; try done; by inversion H. Qed.

Lemma has_key_false k (d : jdict) : has_key k d = false ↔ d !! k = None.
Proof. unfold has_key. by destruct (d !! k). Qed.

Lemma time_gt_spec t z : time_gt t z = true ↔ (inject_Z z < t)%Q.
Proof.
  unfold time_gt, Qlt. simpl. rewrite Z.ltb_lt. lia.
Qed.

(** What one call of [save_tokens] can do: it touches nothing but the store
    file and the clock counter; when it raises the store file is as before,
    and when it returns the provider's entry is the record built from the
    (possibly normalised) token data. *)
Lemma save_tokens_inv provider td w r w' :
  save_tokens provider td w = (r, w') →
  posts w' = posts w ∧ refresh_calls w' = refresh_calls w ∧
  responses w' = responses w ∧ clock w' = clock w ∧
  match r with
  | Raise _ => store_file w' = store_file w
  | Ok td' =>
      ∃ a rt, td' !! "access_token" = Some a ∧ td' !! "refresh_token" = Some rt ∧
        store_file w' =
          Some (<[provider := token_record a rt (default (JNum 0) (td' !! "expires_at"))]> (stored w)) ∧
        ((td' = td ∧ (is_Some (td !! "expires_at") ∨ td !! "expires_in" = None)) ∨
         (td !! "expires_at" = None ∧
          ∃ v ein, td !! "expires_in" = Some v ∧ as_int v = Some ein ∧
            td' = <["expires_at" := JNum (int_of_time (clock w (ticks w)) + ein)]> td))
  end.
Proof.
  unfold save_tokens, bind, _load_store, _save_store, getitem, py_add, time_time, ret, raise.
  destruct (has_key "expires_at" td) eqn:Hat; simpl.
  - apply has_key_true in Hat.
    destruct (td !! "access_token") as [a|] eqn:Ha; simpl;
      [destruct (td !! "refresh_token") as [rt|] eqn:Hr; simpl|];
      intros [= <- <-]; simpl; repeat split; eauto 10.
  - apply has_key_false in Hat.
    destruct (has_key "expires_in" td) eqn:Hin; simpl.
    + apply has_key_true in Hin. destruct Hin as [v Hv]. rewrite Hv. simpl.
      destruct (as_int v) as [ein|] eqn:Hein; simpl.
      * rewrite !lookup_insert_ne by done.
        destruct (td !! "access_token") as [a|] eqn:Ha; simpl;
          [destruct (td !! "refresh_token") as [rt|] eqn:Hr; simpl|];
          intros [= <- <-]; simpl; repeat split; eauto.
        exists a, rt. rewrite !lookup_insert_ne by done.
        repeat split; eauto 10.
      * intros [= <- <-]; simpl; repeat split; eauto.
    + apply has_key_false in Hin.
      destruct (td !! "access_token") as [a|] eqn:Ha; simpl;
        [destruct (td !! "refresh_token") as [rt|] eqn:Hr; simpl|];
        intros [= <- <-]; simpl; repeat split; eauto 10.
Qed.

Lemma dict_truthy_lookup (d : jdict) k v : d !! k = Some v → dict_truthy d = true.
Proof.
  intros H. unfold dict_truthy. rewrite bool_decide_eq_false_2; [done|].
  intros ->. by rewrite lookup_empty in H.
Qed.

Lemma dict_truthy_true (d : jdict) : dict_truthy d = true ↔ d ≠ ∅.
Proof.
  unfold dict_truthy. rewrite negb_true_iff, bool_decide_eq_false. done.
Qed.

Lemma token_record_access a rt e : token_record a rt e !! "access_token" = Some a.
Proof. unfold token_record. by simplify_map_eq. Qed.

Lemma token_record_refresh a rt e : token_record a rt e !! "refresh_token" = Some rt.
Proof. unfold token_record. by simplify_map_eq. Qed.

Lemma token_record_expires a rt e : token_record a rt e !! "expires_at" = Some e.
Proof. unfold token_record. by simplify_map_eq. Qed.

(** [save_tokens] on token data that needs no normalisation. *)
Lemma save_tokens_plain provider td a rt w :
  td !! "access_token" = Some a →
  td !! "refresh_token" = Some rt →
  is_Some (td !! "expires_at") ∨ td !! "expires_in" = None →
  save_tokens provider td w =
    (Ok td,
     set_store_file
       (Some (<[provider := token_record a rt (default (JNum 0) (td !! "expires_at"))]> (stored w)))
       w).
Proof.
  intros Ha Hr Hexp.
  unfold save_tokens, bind, _load_store, _save_store, getitem, ret.
  assert (negb (has_key "expires_at" td) && has_key "expires_in" td = false) as ->.
  { destruct Hexp as [He|He].
    - apply has_key_true in He. by rewrite He.
    - apply has_key_false in He. rewrite He. apply andb_false_r. }
  simpl. rewrite Ha. simpl. rewrite Hr. reflexivity.
Qed.

(** [save_tokens] on token data with a relative [expires_in] only. *)
Lemma save_tokens_relative provider td a rt v ein w :
  td !! "access_token" = Some a →
  td !! "refresh_token" = Some rt →
  td !! "expires_at" = None →
  td !! "expires_in" = Some v →
  as_int v = Some ein →
  let expires_at := JNum (int_of_time (clock w (ticks w)) + ein) in
  save_tokens provider td w =
    (Ok (<["expires_at" := expires_at]> td),
     set_store_file
       (Some (<[provider := token_record a rt expires_at]> (stored w)))
       (tick w)).
Proof.
  intros Ha Hr Hat Hin Hint.
  unfold save_tokens, bind, _load_store, _save_store, getitem, py_add, time_time, ret.
  assert (negb (has_key "expires_at" td) && has_key "expires_in" td = true) as ->.
  { apply has_key_false in Hat. rewrite Hat.
    assert (has_key "expires_in" td = true) as -> by (apply has_key_true; eauto). done. }
  simpl. rewrite Hin. simpl. rewrite Hint. simpl.
  rewrite !lookup_insert_ne by done. rewrite Ha. simpl. rewrite Hr. simpl.
  rewrite lookup_insert_eq. reflexivity.
Qed.

Lemma get_tokens_eq provider w : get_tokens provider w = (Ok (stored w !! provider), w).
Proof. reflexivity. Qed.

(** The expiry check on a record with an integer [expires_at]. *)
Lemma is_token_expired_record provider w tokens v e :
  stored w !! provider = Some tokens →
  tokens !! "expires_at" = Some v →
  as_int v = Some e →
  is_token_expired provider w = (Ok (time_gt (clock w (ticks w)) (e - 300)), tick w).
Proof.
  intros Hs Hv He.
  unfold is_token_expired, bind, get_tokens, _load_store, getitem, py_sub, time_time, ret.
  simpl. rewrite Hs. rewrite (dict_truthy_lookup _ _ _ Hv). simpl.
  rewrite Hv. simpl. rewrite He. reflexivity.
Qed.

Lemma is_token_expired_absent provider w :
  stored w !! provider = None →
  is_token_expired provider w = (Ok true, w).
Proof.
  intros Hs. unfold is_token_expired, bind, get_tokens, _load_store, ret.
  simpl. by rewrite Hs.
Qed.

(** The expiry check never answers "not expired" without a non-empty record. *)
Lemma is_token_expired_false_inv provider w w1 :
  is_token_expired provider w = (Ok false, w1) →
  store_file w1 = store_file w ∧
  ∃ tokens, stored w !! provider = Some tokens ∧ dict_truthy tokens = true.
Proof.
  unfold is_token_expired, bind, get_tokens, _load_store, getitem, py_sub, time_time, ret, raise.
  simpl. destruct (stored w !! provider) as [tokens|] eqn:Hs; [|discriminate].
  destruct (dict_truthy tokens) eqn:Ht; simpl; [|discriminate].
  destruct (tokens !! "expires_at") as [v|]; simpl; [|discriminate].
  destruct (as_int v); simpl; [|discriminate].
  intros [= _ <-]. split; [done|]. eauto.
Qed.

(** ** OAuth service *)

(** Runs [refresh_tokens] up to the answer of its POST, given the provider's
    configuration [Hc], the stored record [Hs] and its truthy refresh token
    [Hr], [Ht]. *)
Ltac refresh_to_post Hc Hs Hr Ht :=
  unfold refresh_tokens, bind, enter_refresh, provider_cfg, get_tokens, _load_store,
    post_json, getitem, ret, raise;
  rewrite Hc; simpl; unfold stored in *; simpl; rewrite Hs;
  rewrite (dict_truthy_lookup _ _ _ Hr), Hr; simpl; rewrite Ht; simpl.

Section AuthFacts.

Variable settings : Settings.

Lemma PROVIDERS_supported provider :
  is_Some (PROVIDERS settings !! provider) ↔ provider = "strava" ∨ provider = "whoop".
Proof.
  unfold PROVIDERS. split.
  - intros [cfg H].
    destruct (decide (provider = "strava")) as [->|Hs]; [by left|].
    destruct (decide (provider = "whoop")) as [->|Hw]; [by right|].
    rewrite lookup_insert_ne, lookup_singleton_ne in H by done. discriminate.
  - intros [-> | ->]; simplify_map_eq; eauto.
Qed.

Lemma PROVIDERS_unknown provider :
  provider ≠ "strava" → provider ≠ "whoop" → PROVIDERS settings !! provider = None.
Proof.
  intros Hs Hw. destruct (PROVIDERS settings !! provider) eqn:H; [|done].
  assert (is_Some (PROVIDERS settings !! provider)) as Hx by eauto.
  apply PROVIDERS_supported in Hx. tauto.
Qed.

(** The route layer accepts exactly the ids [PROVIDERS] has, so a request
    with any other id is answered 400 before the service is called. *)
Lemma SUPPORTED_PROVIDERS_configured provider :
  provider ∈ SUPPORTED_PROVIDERS ↔ is_Some (PROVIDERS settings !! provider).
Proof.
  rewrite PROVIDERS_supported. unfold SUPPORTED_PROVIDERS.
  rewrite !elem_of_cons, elem_of_nil. tauto.
Qed.

Lemma login_rejects_unknown provider w :
  PROVIDERS settings !! provider = None →
  login settings provider w =
    (Raise (HTTPException 400 ("Unknown provider: " +:+ provider)), w).
Proof.
  intros Hc. unfold login, bind, _validate_provider.
  rewrite bool_decide_eq_false_2; [done|].
  rewrite SUPPORTED_PROVIDERS_configured, Hc. by intros [? ?].
Qed.

Lemma refresh_tokens_unknown provider w :
  PROVIDERS settings !! provider = None →
  refresh_tokens settings provider w = (Raise (KeyError provider), log_refresh provider w).
Proof.
  intros H. unfold refresh_tokens, bind, enter_refresh, provider_cfg, raise.
  by rewrite H.
Qed.

Lemma refresh_tokens_no_record provider cfg w :
  PROVIDERS settings !! provider = Some cfg →
  stored w !! provider = None →
  refresh_tokens settings provider w =
    (Raise (ValueError (no_refresh_token_msg provider)), log_refresh provider w).
Proof.
  intros Hc Hs. unfold refresh_tokens, bind, enter_refresh, provider_cfg, get_tokens,
    _load_store, ret, raise.
  rewrite Hc. simpl. unfold stored in *. simpl. by rewrite Hs.
Qed.

(** A refresh whose POST is answered 2xx with a JSON object continues into
    [save_tokens] with the stored refresh token re-attached when missing. *)
Lemma refresh_tokens_2xx provider cfg w tokens R1 status body :
  PROVIDERS settings !! provider = Some cfg →
  stored w !! provider = Some tokens →
  tokens !! "refresh_token" = Some R1 →
  truthy R1 = true →
  responses w (length (posts w)) = Response status (Some body) →
  is_success status = true →
  refresh_tokens settings provider w =
    save_tokens provider
      (if has_key "refresh_token" body then body else <["refresh_token" := R1]> body)
      (log_post (refresh_request cfg R1) (log_refresh provider w)).
Proof.
  intros Hc Hs Hr Ht Hresp Hok.
  refresh_to_post Hc Hs Hr Ht.
  rewrite Hresp, Hok.
  destruct (has_key "refresh_token" body); simpl; reflexivity.
Qed.

Lemma refresh_tokens_falsy provider cfg w tokens :
  PROVIDERS settings !! provider = Some cfg →
  stored w !! provider = Some tokens →
  opt_truthy (tokens !! "refresh_token") = false →
  refresh_tokens settings provider w =
    (Raise (ValueError (no_refresh_token_msg provider)), log_refresh provider w).
Proof.
  intros Hc Hs Hf. unfold refresh_tokens, bind, enter_refresh, provider_cfg, get_tokens,
    _load_store, ret, raise.
  rewrite Hc. simpl. unfold stored in *. simpl. rewrite Hs, Hf.
  by rewrite orb_true_r.
Qed.

(** Every way a refresh can go. *)
Lemma refresh_tokens_cases provider w :
  let w1 := log_refresh provider w in
  refresh_tokens settings provider w = (Raise (KeyError provider), w1) ∨
  refresh_tokens settings provider w = (Raise (ValueError (no_refresh_token_msg provider)), w1) ∨
  (∃ cfg sent e,
      refresh_tokens settings provider w = (Raise e, log_post (refresh_request cfg sent) w1) ∧
      (e = TransportError ∨ e = JSONDecodeError ∨ ∃ status, e = HTTPStatusError status)) ∨
  (∃ cfg sent td,
      refresh_tokens settings provider w =
        save_tokens provider td (log_post (refresh_request cfg sent) w1)).
Proof.
  intros w1. subst w1.
  destruct (PROVIDERS settings !! provider) as [cfg|] eqn:Hc;
    [|left; by apply refresh_tokens_unknown].
  destruct (stored w !! provider) as [tokens|] eqn:Hs;
    [|right; left; by eapply refresh_tokens_no_record].
  destruct (opt_truthy (tokens !! "refresh_token")) eqn:Ht;
    [|right; left; by eapply refresh_tokens_falsy].
  destruct (tokens !! "refresh_token") as [R1|] eqn:Hr; [|discriminate]. simpl in Ht.
  right; right.
  destruct (responses w (length (posts w))) as [status [body|]|] eqn:Hresp.
  - destruct (is_success status) eqn:Hok.
    + right. eexists cfg, R1, _. by eapply refresh_tokens_2xx.
    + left. exists cfg, R1, (HTTPStatusError status). split; [|eauto].
      refresh_to_post Hc Hs Hr Ht.
      by rewrite Hresp, Hok.
  - left. destruct (is_success status) eqn:Hok.
    + exists cfg, R1, JSONDecodeError. split; [|eauto].
      refresh_to_post Hc Hs Hr Ht.
      by rewrite Hresp, Hok.
    + exists cfg, R1, (HTTPStatusError status). split; [|eauto].
      refresh_to_post Hc Hs Hr Ht.
      by rewrite Hresp, Hok.
  - left. exists cfg, R1, TransportError. split; [|eauto].
    refresh_to_post Hc Hs Hr Ht.
    by rewrite Hresp.
Qed.

(** A refresh is logged exactly once, whatever its outcome. *)
Lemma refresh_tokens_calls provider w :
  refresh_calls (snd (refresh_tokens settings provider w)) = refresh_calls w ++ [provider].
Proof.
  destruct (refresh_tokens_cases provider w) as [H|[H|[(cfg&sent&e&H&_)|(cfg&sent&td&H)]]];
    rewrite H; try reflexivity.
  destruct (save_tokens _ _ _) as [r w'] eqn:Hsave.
  apply save_tokens_inv in Hsave as (_ & Hcalls & _). simpl. by rewrite Hcalls.
Qed.

Lemma save_tokens_raise_inv provider td w e w' :
  save_tokens provider td w = (Raise e, w') →
  e = TypeError ∨ ∃ k, e = KeyError k.
Proof.
  unfold save_tokens, bind, _load_store, _save_store, getitem, py_add, time_time, ret, raise.
  destruct (negb (has_key "expires_at" td) && has_key "expires_in" td); simpl.
  - destruct (td !! "expires_in") as [v|]; simpl; [|intros [= <- _]; eauto].
    destruct (as_int v); simpl; [|intros [= <- _]; eauto].
    repeat (match goal with
            | |- context [match ?x !! ?k with _ => _ end] => destruct (x !! k); simpl
            end); intros [= <- _] || discriminate; eauto.
  - repeat (match goal with
            | |- context [match ?x !! ?k with _ => _ end] => destruct (x !! k); simpl
            end); intros [= <- _] || discriminate; eauto.
Qed.

(** The only [ValueError] a refresh raises is its own. *)
Lemma refresh_tokens_value_error provider w msg w' :
  refresh_tokens settings provider w = (Raise (ValueError msg), w') →
  msg = no_refresh_token_msg provider.
Proof.
  destruct (refresh_tokens_cases provider w) as [H|[H|[(cfg&sent&e&H&He)|(cfg&sent&td&H)]]];
    rewrite H.
  - discriminate.
  - by intros [= <- _].
  - intros [= -> _]. destruct He as [He|[He|[st He]]]; discriminate.
  - intros Hs. apply save_tokens_raise_inv in Hs as [Hs|[k Hs]]; discriminate.
Qed.

(** A refresh returns as soon as the 2xx answer carries an access_token and
    expiry information [save_tokens] can normalise. *)
Lemma refresh_tokens_returns provider cfg w tokens R1 status body a :
  PROVIDERS settings !! provider = Some cfg →
  stored w !! provider = Some tokens →
  tokens !! "refresh_token" = Some R1 →
  truthy R1 = true →
  responses w (length (posts w)) = Response status (Some body) →
  is_success status = true →
  body !! "access_token" = Some a →
  (is_Some (body !! "expires_at") ∨ body !! "expires_in" = None ∨
   ∃ v ein, body !! "expires_in" = Some v ∧ as_int v = Some ein) →
  ∃ td w', refresh_tokens settings provider w = (Ok td, w').
Proof.
  intros Hc Hs Hr Ht Hresp Hok Ha Hexp.
  rewrite (refresh_tokens_2xx _ _ _ _ _ _ _ Hc Hs Hr Ht Hresp Hok).
  set (td := if has_key "refresh_token" body then body else <["refresh_token" := R1]> body).
  assert (td !! "access_token" = Some a ∧ is_Some (td !! "refresh_token") ∧
          td !! "expires_at" = body !! "expires_at" ∧
          td !! "expires_in" = body !! "expires_in") as (Ha' & [rt Hrt] & Hat & Hin).
  { subst td. destruct (has_key "refresh_token" body) eqn:Hk.
    - apply has_key_true in Hk. done.
    - rewrite lookup_insert_eq, !lookup_insert_ne by done. eauto. }
  destruct (td !! "expires_at") as [e|] eqn:Hat'.
  { erewrite save_tokens_plain by eauto. eauto. }
  destruct Hexp as [[e He]|[Hnone|(v & ein & Hv & Hint)]].
  - congruence.
  - erewrite save_tokens_plain by (rewrite ?Hin; eauto). eauto.
  - erewrite save_tokens_relative by (rewrite ?Hin; eauto). eauto.
Qed.

Lemma get_authorize_url_unknown provider w :
  PROVIDERS settings !! provider = None →
  get_authorize_url settings provider w = (Raise (KeyError provider), w).
Proof.
  intros H. unfold get_authorize_url, bind, provider_cfg, raise. by rewrite H.
Qed.

Lemma exchange_code_unknown provider code w :
  PROVIDERS settings !! provider = None →
  exchange_code_for_tokens settings provider code w = (Raise (KeyError provider), w).
Proof.
  intros H. unfold exchange_code_for_tokens, bind, provider_cfg, raise. by rewrite H.
Qed.

(** A code exchange answered 2xx with a JSON object continues into
    [save_tokens] with that object. *)
Lemma exchange_code_2xx provider code cfg w status body :
  PROVIDERS settings !! provider = Some cfg →
  responses w (length (posts w)) = Response status (Some body) →
  is_success status = true →
  exchange_code_for_tokens settings provider code w =
    save_tokens provider body
      (log_post (exchange_request cfg code (redirect_uri_for settings provider)) w).
Proof.
  intros Hc Hresp Hok.
  unfold exchange_code_for_tokens, bind, provider_cfg, post_json, ret.
  rewrite Hc. simpl. by rewrite Hresp, Hok.
Qed.

(** With the token expired the valid-token read is the refresh. *)
Lemma get_valid_access_token_expired provider w w1 :
  is_token_expired provider w = (Ok true, w1) →
  get_valid_access_token settings provider w =
    bind (refresh_tokens settings provider) (λ td, getitem td "access_token") w1.
Proof.
  intros H. unfold get_valid_access_token. unfold bind at 1. by rewrite H.
Qed.

Lemma get_valid_access_token_valid provider w w1 tokens a :
  is_token_expired provider w = (Ok false, w1) →
  stored w !! provider = Some tokens →
  tokens !! "access_token" = Some a →
  get_valid_access_token settings provider w = (Ok a, w1).
Proof.
  intros H Hs Ha. unfold get_valid_access_token. unfold bind at 1. rewrite H.
  apply is_token_expired_false_inv in H as [Hfile _].
  unfold bind, get_tokens, _load_store, getitem, ret. simpl.
  assert (stored w1 = stored w) as -> by (unfold stored; by rewrite Hfile).
  rewrite Hs, (dict_truthy_lookup _ _ _ Ha). simpl. by rewrite Ha.
Qed.

Lemma get_valid_access_token_calls provider w w1 :
  is_token_expired provider w = (Ok true, w1) →
  refresh_calls (snd (get_valid_access_token settings provider w)) =
    refresh_calls w1 ++ [provider].
Proof.
  intros H. rewrite (get_valid_access_token_expired _ _ _ H).
  pose proof (refresh_tokens_calls provider w1) as Hc.
  unfold bind. destruct (refresh_tokens settings provider w1) as [[td|e] w2]; simpl in *; [|done].
  unfold getitem, ret, raise. by destruct (td !! "access_token").
Qed.

End AuthFacts.

(** ** Clock comparisons *)

Lemma time_gt_false t z : time_gt t z = false ↔ (t <= inject_Z z)%Q.
Proof.
  rewrite <- not_true_iff_false, time_gt_spec. split.
  - apply Qnot_lt_le.
  - apply Qle_not_lt.
Qed.

(** [now > expires_at - 300] read as a remaining lifetime below 300 s. *)
Lemma time_gt_buffer now e :
  time_gt now (e - 300) = true ↔ (inject_Z e - now < inject_Z 300)%Q.
Proof.
  rewrite time_gt_spec. unfold Z.sub. rewrite inject_Z_plus, inject_Z_opp.
  split; intros H; lra.
Qed.

(** ** The refresh-token rotation rule *)

(** C1. Given a stored record whose refresh_token is R1 and a 2xx answer to
    the refresh POST whose JSON object has no refresh_token field, the record
    stored for the provider after [refresh_tokens] still has refresh_token
    R1: when the refresh returns, the record it wrote carries the usable
    (truthy, hence non-null) R1 re-attached to the response; when it raises,
    the old record is still in place. *)
Theorem refresh_keeps_stored_refresh_token settings provider w tokens R1 status body :
  stored w !! provider = Some tokens →
  tokens !! "refresh_token" = Some R1 →
  responses w (length (posts w)) = Response status (Some body) →
  is_success status = true →
  body !! "refresh_token" = None →
  ∃ r w' rec,
    refresh_tokens settings provider w = (r, w') ∧
    stored w' !! provider = Some rec ∧
    rec !! "refresh_token" = Some R1 ∧
    match r with
    | Ok td =>
        truthy R1 = true ∧ td !! "refresh_token" = Some R1 ∧
        ∃ a, body !! "access_token" = Some a ∧
             rec = token_record a R1 (default (JNum 0) (td !! "expires_at"))
    | Raise _ => rec = tokens
    end.
Proof.
  intros Hs Hr Hresp Hok Hbody.
  destruct (PROVIDERS settings !! provider) as [cfg|] eqn:Hc.
  2:{ rewrite (refresh_tokens_unknown _ _ _ Hc). eexists _, _, tokens.
      split; [reflexivity|]. split; [exact Hs|]. by split. }
  destruct (truthy R1) eqn:Ht.
  2:{ erewrite refresh_tokens_falsy by (rewrite ?Hr; eauto).
      eexists _, _, tokens.
      split; [reflexivity|]. split; [exact Hs|]. by split. }
  rewrite (refresh_tokens_2xx _ _ _ _ _ _ _ _ Hc Hs Hr Ht Hresp Hok).
  apply has_key_false in Hbody as Hk. rewrite Hk.
  destruct (save_tokens _ _ _) as [[td|e] w'] eqn:Hsave;
    apply save_tokens_inv in Hsave as (_ & _ & _ & _ & Hres).
  - destruct Hres as (a & rt & Ha & Hrt & Hfile & Hshape).
    assert (td !! "refresh_token" = Some R1 ∧ body !! "access_token" = Some a) as [Hrt' Ha'].
    { destruct Hshape as [[-> _]|(_ & v & ein & _ & _ & ->)].
      - rewrite lookup_insert_eq in *. rewrite lookup_insert_ne in Ha by done. done.
      - rewrite lookup_insert_ne in * by done. rewrite lookup_insert_eq in *.
        rewrite lookup_insert_ne in Ha by done. done. }
    assert (rt = R1) as -> by congruence.
    eexists _, _, _. split; [reflexivity|].
    unfold stored at 1. rewrite Hfile. simpl. rewrite lookup_insert_eq.
    split; [reflexivity|]. split; [apply token_record_refresh|]. eauto 10.
  - eexists _, _, tokens. split; [reflexivity|].
    unfold stored at 1. rewrite Hres. simpl. eauto.
Qed.

(** Every outcome of a refresh whose 2xx answer has refresh_token = R2: when
    it returns, the record it wrote has refresh_token R2; when it raises, it
    has persisted nothing. *)
Lemma refresh_rotation_outcomes settings provider w tokens status body R2 :
  stored w !! provider = Some tokens →
  responses w (length (posts w)) = Response status (Some body) →
  is_success status = true →
  body !! "refresh_token" = Some R2 →
  ∃ r w',
    refresh_tokens settings provider w = (r, w') ∧
    match r with
    | Ok td =>
        td !! "refresh_token" = Some R2 ∧
        ∃ a, body !! "access_token" = Some a ∧
             stored w' !! provider =
               Some (token_record a R2 (default (JNum 0) (td !! "expires_at")))
    | Raise _ => store_file w' = store_file w
    end.
Proof.
  intros Hs Hresp Hok Hbody.
  destruct (PROVIDERS settings !! provider) as [cfg|] eqn:Hc.
  2:{ rewrite (refresh_tokens_unknown _ _ _ Hc). eexists _, _. by split. }
  destruct (opt_truthy (tokens !! "refresh_token")) eqn:Ht.
  2:{ erewrite refresh_tokens_falsy by eauto. eexists _, _. by split. }
  destruct (tokens !! "refresh_token") as [R1|] eqn:Hr; [|discriminate]. simpl in Ht.
  rewrite (refresh_tokens_2xx _ _ _ _ _ _ _ _ Hc Hs Hr Ht Hresp Hok).
  assert (has_key "refresh_token" body = true) as -> by (apply has_key_true; eauto).
  destruct (save_tokens _ _ _) as [[td|e] w'] eqn:Hsave;
    apply save_tokens_inv in Hsave as (_ & _ & _ & _ & Hres).
  - destruct Hres as (a & rt & Ha & Hrt & Hfile & Hshape).
    assert (td !! "refresh_token" = Some R2 ∧ body !! "access_token" = Some a) as [Hrt' Ha'].
    { destruct Hshape as [[-> _]|(_ & v & ein & _ & _ & ->)]; [done|].
      rewrite lookup_insert_ne in * by done. done. }
    assert (rt = R2) as -> by congruence.
    eexists _, _. split; [reflexivity|]. split; [done|].
    exists a. split; [done|]. unfold stored. rewrite Hfile. simpl.
    apply lookup_insert_eq.
  - eexists _, _. split; [reflexivity|]. done.
Qed.

(** C2. For a provider with a stored record, when the refresh is answered
    2xx with a JSON object whose refresh_token is R2 (the provider is a
    supported one and the stored refresh token R1 is truthy, so that the POST
    is made; the answer carries an access_token and an expiry [save_tokens]
    can take), [refresh_tokens] returns after that one POST and the record
    it has persisted for the provider has refresh_token R2 in place of R1. *)
Theorem refresh_rotates_refresh_token
    settings provider cfg w tokens R1 status body R2 a :
  PROVIDERS settings !! provider = Some cfg →
  stored w !! provider = Some tokens →
  tokens !! "refresh_token" = Some R1 →
  truthy R1 = true →
  responses w (length (posts w)) = Response status (Some body) →
  is_success status = true →
  body !! "refresh_token" = Some R2 →
  body !! "access_token" = Some a →
  (is_Some (body !! "expires_at") ∨ body !! "expires_in" = None ∨
   ∃ v ein, body !! "expires_in" = Some v ∧ as_int v = Some ein) →
  ∃ td w',
    refresh_tokens settings provider w = (Ok td, w') ∧
    td !! "refresh_token" = Some R2 ∧
    td !! "access_token" = Some a ∧
    stored w' !! provider =
      Some (token_record a R2 (default (JNum 0) (td !! "expires_at"))) ∧
    posts w' = posts w ++ [refresh_request cfg R1].
Proof.
  intros Hc Hs Hr Ht Hresp Hok Hbody Ha Hexp.
  rewrite (refresh_tokens_2xx _ _ _ _ _ _ _ _ Hc Hs Hr Ht Hresp Hok).
  assert (has_key "refresh_token" body = true) as -> by (apply has_key_true; eauto).
  destruct (body !! "expires_at") as [e|] eqn:Hat.
  { rewrite (save_tokens_plain _ _ _ _ _ Ha Hbody (or_introl (ex_intro _ e Hat))).
    eexists _, _. split; [reflexivity|]. split; [done|]. split; [done|].
    rewrite stored_set_store_file, lookup_insert_eq. by rewrite Hat. }
  destruct Hexp as [[e He]|[Hnone|(v & ein & Hv & Hint)]]; [discriminate| |].
  - rewrite (save_tokens_plain _ _ _ _ _ Ha Hbody (or_intror Hnone)).
    eexists _, _. split; [reflexivity|]. split; [done|]. split; [done|].
    rewrite stored_set_store_file, lookup_insert_eq. by rewrite Hat.
  - rewrite (save_tokens_relative _ _ _ _ _ _ _ Ha Hbody Hat Hv Hint).
    eexists _, _. split; [reflexivity|].
    rewrite !lookup_insert_ne by done. split; [done|]. split; [done|].
    rewrite stored_set_store_file, !lookup_insert_eq. done.
Qed.

(** ** Unknown provider ids *)

(** C3 (as the code has it). For every provider id that is neither "strava"
    nor "whoop", [get_authorize_url], [exchange_code_for_tokens] and
    [refresh_tokens] raise the [KeyError] of the [PROVIDERS] lookup, before
    any POST or store write, and [get_valid_access_token] raises it whenever
    the expiry check answers "expired", in particular when no record is
    stored for that id. *)
Theorem unknown_provider_raises_key_error settings provider code w :
  provider ≠ "strava" →
  provider ≠ "whoop" →
  get_authorize_url settings provider w = (Raise (KeyError provider), w) ∧
  exchange_code_for_tokens settings provider code w = (Raise (KeyError provider), w) ∧
  refresh_tokens settings provider w = (Raise (KeyError provider), log_refresh provider w) ∧
  (∀ w1, is_token_expired provider w = (Ok true, w1) →
         get_valid_access_token settings provider w =
           (Raise (KeyError provider), log_refresh provider w1)) ∧
  (stored w !! provider = None →
   get_valid_access_token settings provider w =
     (Raise (KeyError provider), log_refresh provider w)).
Proof.
  intros Hs Hw. pose proof (PROVIDERS_unknown settings provider Hs Hw) as Hc.
  assert (∀ w1, is_token_expired provider w = (Ok true, w1) →
            get_valid_access_token settings provider w =
              (Raise (KeyError provider), log_refresh provider w1)) as Hexp.
  { intros w1 H. rewrite (get_valid_access_token_expired _ _ _ _ H).
    unfold bind. by rewrite (refresh_tokens_unknown _ _ _ Hc). }
  split; [by apply get_authorize_url_unknown|].
  split; [by apply exchange_code_unknown|].
  split; [by apply refresh_tokens_unknown|].
  split; [exact Hexp|].
  intros Hnone. apply Hexp. by apply is_token_expired_absent.
Qed.

(** ** The valid-token read *)

(** C4 (as the code has it). For every provider with a stored record whose
    expires_at is an integer and every clock reading now, if
    expires_at - now < 300 then [get_valid_access_token] is the refresh: it
    enters [refresh_tokens] exactly once and its outcome is the refresh's,
    reduced to the access token. *)
Theorem expired_token_triggers_one_refresh settings provider w tokens v e :
  stored w !! provider = Some tokens →
  tokens !! "expires_at" = Some v →
  as_int v = Some e →
  (inject_Z e - clock w (ticks w) < inject_Z 300)%Q →
  get_valid_access_token settings provider w =
    bind (refresh_tokens settings provider) (λ td, getitem td "access_token") (tick w) ∧
  refresh_calls (snd (get_valid_access_token settings provider w)) =
    refresh_calls w ++ [provider].
Proof.
  intros Hs Hv He Hlt.
  pose proof (is_token_expired_record _ _ _ _ _ Hs Hv He) as Hexp.
  apply time_gt_buffer in Hlt. rewrite Hlt in Hexp.
  split.
  - by apply get_valid_access_token_expired.
  - by rewrite (get_valid_access_token_calls _ _ _ _ Hexp).
Qed.

(** C5. For every provider with a stored record that is within the expiry
    buffer (now <= expires_at - 300 at both reads of the clock), two
    consecutive calls of [get_valid_access_token] return the same stored
    access_token, make no POST, enter no refresh and leave the store file as
    it was. *)
Theorem valid_token_read_is_idempotent settings provider w tokens a v e :
  stored w !! provider = Some tokens →
  tokens !! "access_token" = Some a →
  tokens !! "expires_at" = Some v →
  as_int v = Some e →
  (clock w (ticks w) <= inject_Z (e - 300))%Q →
  (clock w (S (ticks w)) <= inject_Z (e - 300))%Q →
  let w1 := tick w in
  let w2 := tick w1 in
  get_valid_access_token settings provider w = (Ok a, w1) ∧
  get_valid_access_token settings provider w1 = (Ok a, w2) ∧
  posts w1 = posts w ∧ posts w2 = posts w ∧
  refresh_calls w2 = refresh_calls w ∧
  store_file w1 = store_file w ∧ store_file w2 = store_file w.
Proof.
  intros Hs Ha Hv He Hnow1 Hnow2 w1 w2.
  apply time_gt_false in Hnow1, Hnow2.
  assert (stored w1 !! provider = Some tokens) as Hs1 by exact Hs.
  pose proof (is_token_expired_record _ _ _ _ _ Hs Hv He) as Hexp.
  pose proof (is_token_expired_record _ _ _ _ _ Hs1 Hv He) as Hexp1.
  rewrite Hnow1 in Hexp. simpl in Hexp1. rewrite Hnow2 in Hexp1.
  split; [by eapply get_valid_access_token_valid|].
  split; [by eapply get_valid_access_token_valid|].
  done.
Qed.

(** ** Code exchange *)

(** C6. For every supported provider with no stored record, a code exchange
    answered 2xx with a JSON object that carries access_token, refresh_token
    and an integer expires_in (and no expires_at) returns, and adds exactly
    one entry to the store: the provider's record, whose expires_at is the
    clock reading at the write, in whole seconds, plus expires_in. *)
Theorem exchange_creates_one_normalized_record
    settings provider code cfg w status body a rt v ein :
  PROVIDERS settings !! provider = Some cfg →
  stored w !! provider = None →
  responses w (length (posts w)) = Response status (Some body) →
  is_success status = true →
  body !! "expires_at" = None →
  body !! "expires_in" = Some v →
  as_int v = Some ein →
  body !! "access_token" = Some a →
  body !! "refresh_token" = Some rt →
  let expires_at := JNum (int_of_time (clock w (ticks w)) + ein) in
  ∃ w',
    exchange_code_for_tokens settings provider code w =
      (Ok (<["expires_at" := expires_at]> body), w') ∧
    stored w' = <[provider := token_record a rt expires_at]> (stored w) ∧
    dom (stored w') = {[provider]} ∪ dom (stored w) ∧
    size (stored w') = S (size (stored w)) ∧
    posts w' = posts w ++ [exchange_request cfg code (redirect_uri_for settings provider)].
Proof.
  intros Hc Hnone Hresp Hok Hat Hin Hint Ha Hr expires_at.
  rewrite (exchange_code_2xx _ _ _ _ _ _ _ Hc Hresp Hok).
  rewrite (save_tokens_relative _ _ _ _ _ _ _ Ha Hr Hat Hin Hint).
  eexists. split; [reflexivity|].
  rewrite stored_set_store_file.
  split; [reflexivity|].
  split; [apply dom_insert_L|].
  split; [by apply map_size_insert_None|].
  reflexivity.
Qed.

(** ** Logout *)

(** C7. For each of the two supported providers, [delete_tokens] followed by
    [get_valid_access_token] raises the not-authenticated [ValueError]
    ("No refresh token stored ... Re-authenticate."), returns no token and
    makes no POST. *)
Theorem delete_then_read_not_authenticated settings provider w :
  provider = "strava" ∨ provider = "whoop" →
  let w1 := snd (delete_tokens provider w) in
  get_valid_access_token settings provider w1 =
    (Raise (ValueError (no_refresh_token_msg provider)), log_refresh provider w1) ∧
  not_authenticated (ValueError (no_refresh_token_msg provider)) = true ∧
  stored w1 !! provider = None ∧
  posts (log_refresh provider w1) = posts w.
Proof.
  intros Hsup w1.
  apply PROVIDERS_supported with (settings := settings) in Hsup as [cfg Hc].
  assert (stored w1 !! provider = None) as Hnone.
  { subst w1. unfold delete_tokens, bind, _load_store, _save_store. simpl.
    rewrite stored_set_store_file. apply lookup_delete_eq. }
  split; [|by repeat split].
  rewrite (get_valid_access_token_expired _ _ _ _ (is_token_expired_absent _ _ Hnone)).
  unfold bind. by rewrite (refresh_tokens_no_record _ _ _ _ Hc Hnone).
Qed.

(** C8. In a fixed store, when [is_token_expired] answers "not expired" a
    non-empty record for the provider exists, so [get_valid_access_token]
    never raises the "Not authenticated with ..." [ValueError] of its last
    branch; with no record stored the call is the refresh path. *)
Theorem not_authenticated_branch_unreachable settings provider w :
  (∀ w1, is_token_expired provider w = (Ok false, w1) →
         ∃ tokens, get_tokens provider w1 = (Ok (Some tokens), w1) ∧
                   dict_truthy tokens = true) ∧
  fst (get_valid_access_token settings provider w) ≠
    Raise (ValueError (not_authenticated_msg provider)) ∧
  (stored w !! provider = None →
   get_valid_access_token settings provider w =
     bind (refresh_tokens settings provider) (λ td, getitem td "access_token") w).
Proof.
  assert (∀ w1, is_token_expired provider w = (Ok false, w1) →
            ∃ tokens, get_tokens provider w1 = (Ok (Some tokens), w1) ∧
                      dict_truthy tokens = true) as Hrec.
  { intros w1 H. apply is_token_expired_false_inv in H as (Hfile & tokens & Hs & Ht).
    exists tokens. split; [|done]. rewrite get_tokens_eq.
    unfold stored in *. by rewrite Hfile, Hs. }
  split; [exact Hrec|]. split.
  - unfold get_valid_access_token. unfold bind at 1.
    destruct (is_token_expired provider w) as [[[|]|e] w1] eqn:Hexp; simpl.
    + unfold bind.
      destruct (refresh_tokens settings provider w1) as [[td|e] w2] eqn:Href; simpl.
      * unfold getitem, ret, raise. destruct (td !! "access_token"); simpl; discriminate.
      * intros [= ->]. apply refresh_tokens_value_error in Href.
        unfold not_authenticated_msg, no_refresh_token_msg in Href. discriminate.
    + destruct (Hrec w1 eq_refl) as (tokens & Hget & Ht).
      unfold bind. rewrite Hget, Ht. simpl.
      unfold getitem, ret, raise. destruct (tokens !! "access_token"); simpl; discriminate.
    + intros [= ->].
      revert Hexp. unfold is_token_expired, bind, get_tokens, _load_store, getitem, py_sub,
        time_time, ret, raise. simpl.
      destruct (stored w !! provider) as [tokens|]; [|discriminate].
      destruct (dict_truthy tokens); simpl; [|discriminate].
      destruct (tokens !! "expires_at") as [v|]; simpl; [|discriminate].
      destruct (as_int v); simpl; discriminate.
  - intros Hnone. by apply get_valid_access_token_expired, is_token_expired_absent.
Qed.

(** ** Frame of the store operations *)

(** C9. For distinct provider ids P and Q, [save_tokens] for P (whether it
    returns or raises) and [delete_tokens] for P leave the entry of Q in the
    persisted collection as it was. *)
Theorem save_and_delete_leave_others provider other td w :
  provider ≠ other →
  stored (snd (save_tokens provider td w)) !! other = stored w !! other ∧
  stored (snd (delete_tokens provider w)) !! other = stored w !! other.
Proof.
  intros Hne. split.
  - destruct (save_tokens provider td w) as [[td'|e] w'] eqn:Hsave;
      apply save_tokens_inv in Hsave as (_ & _ & _ & _ & Hres); simpl.
    + destruct Hres as (a & rt & _ & _ & Hfile & _).
      unfold stored at 1. rewrite Hfile. simpl. by apply lookup_insert_ne.
    + unfold stored. by rewrite Hres.
  - unfold delete_tokens, bind, _load_store, _save_store. simpl.
    rewrite stored_set_store_file. by apply lookup_delete_ne.
Qed.

(** C10. When the token data given to [save_tokens] has neither expires_at
    nor expires_in (and has the two tokens, so that a record is written), the
    record persisted has expires_at = 0; while that record stays in the
    store every expiry check at a clock reading later than -300 (any reading
    since the epoch) answers "expired", and [get_valid_access_token] enters
    [refresh_tokens]. *)
Theorem save_without_expiry_is_always_expired settings provider td a rt w :
  td !! "expires_at" = None →
  td !! "expires_in" = None →
  td !! "access_token" = Some a →
  td !! "refresh_token" = Some rt →
  ∃ w1,
    save_tokens provider td w = (Ok td, w1) ∧
    stored w1 !! provider = Some (token_record a rt (JNum 0)) ∧
    ∀ w2, stored w2 !! provider = stored w1 !! provider →
          (inject_Z (-300) < clock w2 (ticks w2))%Q →
          is_token_expired provider w2 = (Ok true, tick w2) ∧
          get_valid_access_token settings provider w2 =
            bind (refresh_tokens settings provider) (λ td, getitem td "access_token")
              (tick w2) ∧
          refresh_calls (snd (get_valid_access_token settings provider w2)) =
            refresh_calls w2 ++ [provider].
Proof.
  intros Hat Hin Ha Hr.
  rewrite (save_tokens_plain _ _ _ _ _ Ha Hr (or_intror Hin)). rewrite Hat. simpl.
  eexists. split; [reflexivity|].
  rewrite stored_set_store_file, lookup_insert_eq. split; [reflexivity|].
  intros w2 Hsame Hclock.
  assert (is_token_expired provider w2 = (Ok true, tick w2)) as Hexp.
  { rewrite (is_token_expired_record provider w2 _ (JNum 0) 0 Hsame
               (token_record_expires _ _ _) eq_refl).
    assert (time_gt (clock w2 (ticks w2)) (0 - 300) = true) as ->; [|done].
    by apply time_gt_spec. }
  split; [done|]. split.
  - by apply get_valid_access_token_expired.
  - by rewrite (get_valid_access_token_calls _ _ _ _ Hexp).
Qed.

(** ** The operations on sample worlds *)

Example authorize_url_strava w :
  get_authorize_url default_settings "strava" w =
    (Ok "https://www.strava.com/oauth/authorize?client_id=&redirect_uri=http://localhost:8000/auth/strava/callback&response_type=code&scope=read,activity:read_all", w).
Proof. reflexivity. Qed.

Example first_login_run :
  fst (exchange_code_for_tokens default_settings "strava" "code-1" first_login_world) =
    Ok (<["expires_at" := JNum 4600]> answer_with_refresh_token) ∧
  stored (snd (exchange_code_for_tokens default_settings "strava" "code-1" first_login_world)) =
    {[ "strava" := token_record (JStr "access-2") (JStr "refresh-2") (JNum 4600) ]}.
Proof. split; vm_compute; reflexivity. Qed.

Example omitting_run :
  fst (refresh_tokens default_settings "strava" omitting_world) =
    Ok (<["expires_at" := JNum 8600]>
          (<["refresh_token" := JStr "refresh-1"]> answer_without_refresh_token)) ∧
  stored (snd (refresh_tokens default_settings "strava" omitting_world)) =
    {[ "strava" := token_record (JStr "access-2") (JStr "refresh-1") (JNum 8600) ]}.
Proof. split; vm_compute; reflexivity. Qed.

Example rotating_run :
  stored (snd (refresh_tokens default_settings "strava" rotating_world)) =
    {[ "strava" := token_record (JStr "access-2") (JStr "refresh-2") (JNum 8600) ]}.
Proof. vm_compute; reflexivity. Qed.

Example expiring_run :
  fst (get_valid_access_token default_settings "strava" expiring_world) = Ok (JStr "access-2") ∧
  refresh_calls (snd (get_valid_access_token default_settings "strava" expiring_world)) = ["strava"] ∧
  length (posts (snd (get_valid_access_token default_settings "strava" expiring_world))) = 1%nat.
Proof. repeat split; vm_compute; reflexivity. Qed.

(** ** Where the design's wording and the code part ways *)

(** C3, refuted as worded: for the id "garmin" the three operations that
    consult [PROVIDERS] fail with the key-lookup failure itself, and
    [get_valid_access_token] does not fail at all when the store file holds
    a fresh record under that id. *)
Lemma unknown_provider_is_key_lookup_failure :
  get_authorize_url default_settings "garmin" garmin_world =
    (Raise (KeyError "garmin"), garmin_world) ∧
  exchange_code_for_tokens default_settings "garmin" "code-1" garmin_world =
    (Raise (KeyError "garmin"), garmin_world) ∧
  refresh_tokens default_settings "garmin" garmin_world =
    (Raise (KeyError "garmin"), log_refresh "garmin" garmin_world) ∧
  key_lookup_failure (KeyError "garmin") = true ∧
  get_valid_access_token default_settings "garmin" garmin_world =
    (Ok (JStr "access-1"), tick garmin_world).
Proof. repeat split; vm_compute; reflexivity. Qed.

(** C4, refuted as worded: with expires_at = 1000 and now = 700, so that
    expires_at - now = 300 <= 300, [get_valid_access_token] returns the stored
    access token and enters no refresh. *)
Lemma boundary_read_makes_no_refresh :
  stored boundary_world !! "strava" = Some sample_record ∧
  sample_record !! "expires_at" = Some (JNum 1000) ∧
  (inject_Z 1000 - clock boundary_world (ticks boundary_world) <= inject_Z 300)%Q ∧
  get_valid_access_token default_settings "strava" boundary_world =
    (Ok (JStr "access-1"), tick boundary_world) ∧
  refresh_calls (tick boundary_world) = [] ∧
  posts (tick boundary_world) = [].
Proof.
  split; [vm_compute; reflexivity|]. split; [vm_compute; reflexivity|].
  split; [unfold Qle; simpl; lia|].
  repeat split; vm_compute; reflexivity.
Qed.

(** ** The theorems at sample worlds *)

Lemma refresh_keeps_stored_refresh_token_witness :
  ∃ r w' rec,
    refresh_tokens default_settings "strava" omitting_world = (r, w') ∧
    stored w' !! "strava" = Some rec ∧
    rec !! "refresh_token" = Some (JStr "refresh-1") ∧
    match r with
    | Ok td =>
        truthy (JStr "refresh-1") = true ∧ td !! "refresh_token" = Some (JStr "refresh-1") ∧
        ∃ a, answer_without_refresh_token !! "access_token" = Some a ∧
             rec = token_record a (JStr "refresh-1") (default (JNum 0) (td !! "expires_at"))
    | Raise _ => rec = sample_record
    end.
Proof.
  apply (refresh_keeps_stored_refresh_token default_settings "strava" omitting_world
           sample_record (JStr "refresh-1") 200 answer_without_refresh_token);
    vm_compute; reflexivity.
Defined.

Lemma refresh_rotates_refresh_token_witness :
  ∃ td w',
    refresh_tokens default_settings "strava" rotating_world = (Ok td, w') ∧
    td !! "refresh_token" = Some (JStr "refresh-2") ∧
    td !! "access_token" = Some (JStr "access-2") ∧
    stored w' !! "strava" =
      Some (token_record (JStr "access-2") (JStr "refresh-2")
              (default (JNum 0) (td !! "expires_at"))) ∧
    posts w' =
      posts rotating_world ++
      [refresh_request (strava_cfg default_settings) (JStr "refresh-1")].
Proof.
  apply (refresh_rotates_refresh_token default_settings "strava"
           (strava_cfg default_settings) rotating_world sample_record (JStr "refresh-1")
           200 answer_with_refresh_token (JStr "refresh-2") (JStr "access-2"));
    try (vm_compute; reflexivity).
  right. right. exists (JNum 3600), 3600. split; vm_compute; reflexivity.
Defined.

Lemma unknown_provider_raises_key_error_witness :
  get_authorize_url default_settings "garmin" first_login_world =
    (Raise (KeyError "garmin"), first_login_world) ∧
  exchange_code_for_tokens default_settings "garmin" "code-1" first_login_world =
    (Raise (KeyError "garmin"), first_login_world) ∧
  refresh_tokens default_settings "garmin" first_login_world =
    (Raise (KeyError "garmin"), log_refresh "garmin" first_login_world) ∧
  (∀ w1, is_token_expired "garmin" first_login_world = (Ok true, w1) →
         get_valid_access_token default_settings "garmin" first_login_world =
           (Raise (KeyError "garmin"), log_refresh "garmin" w1)) ∧
  (stored first_login_world !! "garmin" = None →
   get_valid_access_token default_settings "garmin" first_login_world =
     (Raise (KeyError "garmin"), log_refresh "garmin" first_login_world)).
Proof.
  apply (unknown_provider_raises_key_error default_settings "garmin" "code-1"
           first_login_world); discriminate.
Defined.

Lemma expired_token_triggers_one_refresh_witness :
  get_valid_access_token default_settings "strava" expiring_world =
    bind (refresh_tokens default_settings "strava") (λ td, getitem td "access_token")
      (tick expiring_world) ∧
  refresh_calls (snd (get_valid_access_token default_settings "strava" expiring_world)) =
    refresh_calls expiring_world ++ ["strava"].
Proof.
  apply (expired_token_triggers_one_refresh default_settings "strava" expiring_world
           sample_record (JNum 1000) 1000); vm_compute; reflexivity.
Defined.

Lemma valid_token_read_is_idempotent_witness :
  get_valid_access_token default_settings "strava" valid_world =
    (Ok (JStr "access-1"), tick valid_world) ∧
  get_valid_access_token default_settings "strava" (tick valid_world) =
    (Ok (JStr "access-1"), tick (tick valid_world)) ∧
  posts (tick valid_world) = posts valid_world ∧
  posts (tick (tick valid_world)) = posts valid_world ∧
  refresh_calls (tick (tick valid_world)) = refresh_calls valid_world ∧
  store_file (tick valid_world) = store_file valid_world ∧
  store_file (tick (tick valid_world)) = store_file valid_world.
Proof.
  apply (valid_token_read_is_idempotent default_settings "strava" valid_world
           sample_record (JStr "access-1") (JNum 1000) 1000);
    try (vm_compute; reflexivity); unfold Qle; simpl; lia.
Defined.

Lemma exchange_creates_one_normalized_record_witness :
  ∃ w',
    exchange_code_for_tokens default_settings "strava" "code-1" first_login_world =
      (Ok (<["expires_at" := JNum (1000 + 3600)]> answer_with_refresh_token), w') ∧
    stored w' =
      <["strava" := token_record (JStr "access-2") (JStr "refresh-2") (JNum (1000 + 3600))]>
        (stored first_login_world) ∧
    dom (stored w') = {["strava"]} ∪ dom (stored first_login_world) ∧
    size (stored w') = S (size (stored first_login_world)) ∧
    posts w' =
      posts first_login_world ++
      [exchange_request (strava_cfg default_settings) "code-1"
         (redirect_uri_for default_settings "strava")].
Proof.
  apply (exchange_creates_one_normalized_record default_settings "strava" "code-1"
           (strava_cfg default_settings) first_login_world 200 answer_with_refresh_token
           (JStr "access-2") (JStr "refresh-2") (JNum 3600) 3600);
    vm_compute; reflexivity.
Defined.

Lemma delete_then_read_not_authenticated_witness :
  get_valid_access_token default_settings "strava" (snd (delete_tokens "strava" valid_world)) =
    (Raise (ValueError (no_refresh_token_msg "strava")),
     log_refresh "strava" (snd (delete_tokens "strava" valid_world))) ∧
  not_authenticated (ValueError (no_refresh_token_msg "strava")) = true ∧
  stored (snd (delete_tokens "strava" valid_world)) !! "strava" = None ∧
  posts (log_refresh "strava" (snd (delete_tokens "strava" valid_world))) = posts valid_world.
Proof.
  apply (delete_then_read_not_authenticated default_settings "strava" valid_world).
  left. reflexivity.
Defined.

Lemma save_and_delete_leave_others_witness :
  stored (snd (save_tokens "whoop" token_data_without_expiry valid_world)) !! "strava" =
    stored valid_world !! "strava" ∧
  stored (snd (delete_tokens "whoop" valid_world)) !! "strava" =
    stored valid_world !! "strava".
Proof.
  apply (save_and_delete_leave_others "whoop" "strava" token_data_without_expiry valid_world).
  discriminate.
Defined.

Lemma save_without_expiry_is_always_expired_witness :
  ∃ w1,
    save_tokens "strava" token_data_without_expiry first_login_world =
      (Ok token_data_without_expiry, w1) ∧
    stored w1 !! "strava" =
      Some (token_record (JStr "access-3") (JStr "refresh-3") (JNum 0)) ∧
    ∀ w2, stored w2 !! "strava" = stored w1 !! "strava" →
          (inject_Z (-300) < clock w2 (ticks w2))%Q →
          is_token_expired "strava" w2 = (Ok true, tick w2) ∧
          get_valid_access_token default_settings "strava" w2 =
            bind (refresh_tokens default_settings "strava")
              (λ td, getitem td "access_token") (tick w2) ∧
          refresh_calls (snd (get_valid_access_token default_settings "strava" w2)) =
            refresh_calls w2 ++ ["strava"].
Proof.
  apply (save_without_expiry_is_always_expired default_settings "strava"
           token_data_without_expiry (JStr "access-3") (JStr "refresh-3") first_login_world);
    vm_compute; reflexivity.
Defined.

(** * Further properties of the code *)

(** ** Token store: what a write leaves behind *)

Lemma dom_token_record a rt e :
  dom (token_record a rt e) = ({[ "access_token"; "refresh_token"; "expires_at" ]} : gset string).
Proof.
  unfold token_record. rewrite !dom_insert_L, dom_singleton_L. set_solver.
Qed.

(** X1. After [save_tokens] returns, [get_tokens] yields a record with
    exactly the keys access_token, refresh_token and expires_at; the two
    tokens are those of the token data, and every other field of the token
    data is dropped. *)
Theorem save_then_get_tokens provider td td' w w' :
  save_tokens provider td w = (Ok td', w') →
  ∃ rec,
    get_tokens provider w' = (Ok (Some rec), w') ∧
    dom rec = ({[ "access_token"; "refresh_token"; "expires_at" ]} : gset string) ∧
    rec !! "access_token" = td !! "access_token" ∧
    rec !! "refresh_token" = td !! "refresh_token" ∧
    rec !! "expires_at" = Some (default (JNum 0) (td' !! "expires_at")) ∧
    dict_truthy rec = true.
Proof.
  intros Hsave. apply save_tokens_inv in Hsave as (_ & _ & _ & _ & Hres).
  destruct Hres as (a & rt & Ha & Hrt & Hfile & Hshape).
  eexists. rewrite get_tokens_eq. unfold stored. rewrite Hfile. simpl.
  rewrite lookup_insert_eq. split; [reflexivity|].
  split; [apply dom_token_record|].
  rewrite token_record_access, token_record_refresh, token_record_expires.
  assert (td !! "access_token" = Some a ∧ td !! "refresh_token" = Some rt) as [-> ->].
  { destruct Hshape as [[-> _]|(_ & v & ein & _ & _ & ->)]; [done|].
    by rewrite !lookup_insert_ne in * by done. }
  do 3 (split; [reflexivity|]).
  eapply dict_truthy_lookup, token_record_access.
Qed.

(** X2. When [save_tokens] raises, nothing has been written, and the error
    names the cause: [TypeError] for an expires_in that is not an integer
    (and no expires_at), else [KeyError] for the first of access_token and
    refresh_token that is missing. *)
Theorem save_tokens_failure provider td w e w' :
  save_tokens provider td w = (Raise e, w') →
  store_file w' = store_file w ∧
  ((e = TypeError ∧ td !! "expires_at" = None ∧
    ∃ v, td !! "expires_in" = Some v ∧ as_int v = None) ∨
   (e = KeyError "access_token" ∧ td !! "access_token" = None) ∨
   (e = KeyError "refresh_token" ∧ td !! "refresh_token" = None ∧
    is_Some (td !! "access_token"))).
Proof.
  intros Hsave. split.
  { by apply save_tokens_inv in Hsave as (_ & _ & _ & _ & Hres). }
  revert Hsave.
  unfold save_tokens, bind, _load_store, _save_store, getitem, py_add, time_time, ret, raise.
  destruct (has_key "expires_at" td) eqn:Hat; simpl.
  - destruct (td !! "access_token") as [a|] eqn:Ha; simpl;
      [destruct (td !! "refresh_token") as [rt|] eqn:Hr; simpl|];
      intros [= <- _] || discriminate; eauto 10.
  - apply has_key_false in Hat.
    destruct (has_key "expires_in" td) eqn:Hin; simpl.
    + apply has_key_true in Hin as [v Hv]. rewrite Hv. simpl.
      destruct (as_int v) as [ein|] eqn:Hein; simpl.
      * rewrite !lookup_insert_ne by done.
        destruct (td !! "access_token") as [a|] eqn:Ha; simpl;
          [destruct (td !! "refresh_token") as [rt|] eqn:Hr; simpl|];
          intros [= <- _] || discriminate; eauto 10.
      * intros [= <- _]. left. eauto.
    + destruct (td !! "access_token") as [a|] eqn:Ha; simpl;
        [destruct (td !! "refresh_token") as [rt|] eqn:Hr; simpl|];
        intros [= <- _] || discriminate; eauto 10.
Qed.

(** X3. An expires_at present in the token data wins: it is stored as given,
    the clock is not read and an expires_in beside it is ignored. *)
Theorem save_tokens_keeps_given_expires_at provider td a rt e w :
  td !! "access_token" = Some a →
  td !! "refresh_token" = Some rt →
  td !! "expires_at" = Some e →
  ∃ w',
    save_tokens provider td w = (Ok td, w') ∧
    stored w' !! provider = Some (token_record a rt e) ∧
    ticks w' = ticks w.
Proof.
  intros Ha Hr He.
  rewrite (save_tokens_plain _ _ _ _ _ Ha Hr (or_introl (ex_intro _ e He))).
  eexists. split; [reflexivity|]. rewrite stored_set_store_file, lookup_insert_eq, He.
  done.
Qed.

(** X4. A second [save_tokens] for the same provider replaces the record
    whole: the collection is the original one with the provider's entry
    built from the second token data alone. *)
Theorem save_tokens_overwrites provider td1 td1' td2 td2' w w1 w2 :
  save_tokens provider td1 w = (Ok td1', w1) →
  save_tokens provider td2 w1 = (Ok td2', w2) →
  ∃ a rt,
    td2 !! "access_token" = Some a ∧ td2 !! "refresh_token" = Some rt ∧
    stored w2 =
      <[provider := token_record a rt (default (JNum 0) (td2' !! "expires_at"))]> (stored w).
Proof.
  intros H1 H2.
  apply save_tokens_inv in H1 as (_ & _ & _ & _ & (a1 & rt1 & _ & _ & Hfile1 & _)).
  apply save_tokens_inv in H2 as (_ & _ & _ & _ & (a & rt & Ha & Hrt & Hfile2 & Hshape)).
  exists a, rt.
  assert (td2 !! "access_token" = Some a ∧ td2 !! "refresh_token" = Some rt) as [-> ->].
  { destruct Hshape as [[-> _]|(_ & v & ein & _ & _ & ->)]; [done|].
    by rewrite !lookup_insert_ne in * by done. }
  split; [done|]. split; [done|].
  unfold stored at 1. rewrite Hfile2. simpl.
  unfold stored at 1. rewrite Hfile1. simpl.
  apply insert_insert_eq.
Qed.

(** X5. [delete_tokens] always returns; afterwards the provider has no
    record and counts as expired, the store file exists, a second delete
    changes nothing, and deleting a provider that had no record leaves the
    collection as it was. *)
Theorem delete_tokens_removes provider w :
  ∃ w',
    delete_tokens provider w = (Ok tt, w') ∧
    store_file w' = Some (delete provider (stored w)) ∧
    get_tokens provider w' = (Ok None, w') ∧
    is_token_expired provider w' = (Ok true, w') ∧
    stored (snd (delete_tokens provider w')) = stored w' ∧
    (stored w !! provider = None → stored w' = stored w).
Proof.
  eexists. split; [reflexivity|]. split; [reflexivity|].
  assert (stored (set_store_file (Some (delete provider (stored w))) w) !! provider = None)
    as Hnone by (rewrite stored_set_store_file; apply lookup_delete_eq).
  split; [by rewrite get_tokens_eq, Hnone|].
  split; [by apply is_token_expired_absent|].
  split.
  - unfold delete_tokens, bind, _load_store, _save_store. simpl.
    rewrite !stored_set_store_file. by rewrite delete_delete_eq.
  - intros H. rewrite stored_set_store_file. by apply delete_id.
Qed.

(** X6. Saving tokens for a provider that had no record and then deleting
    them gives back the collection as it was, whether the save returned or
    raised. *)
Theorem save_then_delete_restores provider td w :
  stored w !! provider = None →
  stored (snd (delete_tokens provider (snd (save_tokens provider td w)))) = stored w.
Proof.
  intros Hnone.
  destruct (save_tokens provider td w) as [[td'|e] w1] eqn:Hsave;
    apply save_tokens_inv in Hsave as (_ & _ & _ & _ & Hres); simpl;
    unfold delete_tokens, bind, _load_store, _save_store; simpl;
    rewrite stored_set_store_file.
  - destruct Hres as (a & rt & _ & _ & Hfile & _).
    unfold stored at 1. rewrite Hfile. simpl.
    rewrite delete_insert_eq. by apply delete_id.
  - unfold stored at 1. rewrite Hres. by apply delete_id.
Qed.

(** X7. Expiry is monotone in time: for one and the same stored record, a
    token that counts as expired at one clock reading counts as expired at
    every later one. *)
Theorem expiry_is_monotone provider w w' tokens :
  stored w !! provider = Some tokens →
  stored w' !! provider = Some tokens →
  (clock w (ticks w) <= clock w' (ticks w'))%Q →
  fst (is_token_expired provider w) = Ok true →
  fst (is_token_expired provider w') = Ok true.
Proof.
  intros Hs Hs' Hle.
  unfold is_token_expired, bind, get_tokens, _load_store, getitem, py_sub, time_time,
    ret, raise. simpl. rewrite Hs, Hs'.
  destruct (dict_truthy tokens); simpl; [|done].
  destruct (tokens !! "expires_at") as [v|]; simpl; [|done].
  destruct (as_int v) as [e|]; simpl; [|done].
  intros [= Hgt]. f_equal. apply time_gt_spec. apply time_gt_spec in Hgt.
  eapply Qlt_le_trans; eauto.
Qed.

(** X8. [save_tokens] does not check the type of a given expires_at: one
    that is not a number (null, a string, an array or an object) is
    persisted as it is, and from then on the expiry check and
    [get_valid_access_token] raise [TypeError] for that provider, entering
    no refresh and making no POST. *)
Theorem non_numeric_expires_at_poisons_the_record settings provider td a rt e w :
  td !! "access_token" = Some a →
  td !! "refresh_token" = Some rt →
  td !! "expires_at" = Some e →
  non_numeric e = true →
  ∃ w1,
    save_tokens provider td w = (Ok td, w1) ∧
    stored w1 !! provider = Some (token_record a rt e) ∧
    ∀ w2, stored w2 !! provider = stored w1 !! provider →
      is_token_expired provider w2 = (Raise TypeError, tick w2) ∧
      get_valid_access_token settings provider w2 = (Raise TypeError, tick w2) ∧
      posts (tick w2) = posts w2 ∧ refresh_calls (tick w2) = refresh_calls w2.
Proof.
  intros Ha Hr He Hnon.
  assert (as_int e = None) as Hint by (by destruct e).
  rewrite (save_tokens_plain _ _ _ _ _ Ha Hr (or_introl (ex_intro _ e He))).
  eexists. split; [reflexivity|].
  rewrite stored_set_store_file, lookup_insert_eq, He. simpl.
  split; [reflexivity|].
  intros w2 Hs.
  assert (is_token_expired provider w2 = (Raise TypeError, tick w2)) as Hexp.
  { unfold is_token_expired, bind, get_tokens, _load_store, getitem, py_sub, time_time,
      ret, raise. simpl. rewrite Hs.
    rewrite (dict_truthy_lookup _ _ _ (token_record_access a rt e)). simpl.
    rewrite token_record_expires. simpl. by rewrite Hint. }
  split; [done|]. split; [|done].
  unfold get_valid_access_token. unfold bind at 1. by rewrite Hexp.
Qed.

(** ** OAuth service: what one call can do to the world *)

Lemma footprint_still {A} provider w (r : Result A) w' :
  posts w' = posts w → store_file w' = store_file w → footprint provider w r w'.
Proof.
  intros Hp Hf. split; [exists []; split; [by rewrite app_nil_r|simpl; lia]|].
  split; [intros; unfold stored; by rewrite Hf|]. by destruct r.
Qed.

Lemma footprint_after_post {A} provider w req w1 (r : Result A) w' :
  posts w1 = posts w ++ [req] →
  store_file w1 = store_file w →
  posts w' = posts w1 →
  (∀ other, other ≠ provider → stored w' !! other = stored w1 !! other) →
  match r with Raise _ => store_file w' = store_file w1 | Ok _ => True end →
  footprint provider w r w'.
Proof.
  intros Hp1 Hf1 Hp Hother Hr. split; [exists [req]; split; [congruence|simpl; lia]|].
  split.
  - intros other Hne. rewrite (Hother _ Hne). unfold stored. by rewrite Hf1.
  - destruct r; [done|congruence].
Qed.

Lemma footprint_one_post {A} provider w req (r : Result A) w' :
  posts w' = posts w ++ [req] →
  store_file w' = store_file w →
  footprint provider w r w'.
Proof.
  intros Hp Hf. split; [exists [req]; split; [done|simpl; lia]|].
  split; [intros; unfold stored; by rewrite Hf|]. by destruct r.
Qed.

Lemma save_tokens_others provider td w r w' other :
  save_tokens provider td w = (r, w') →
  other ≠ provider →
  stored w' !! other = stored w !! other.
Proof.
  intros Hsave Hne. apply save_tokens_inv in Hsave as (_ & _ & _ & _ & Hres).
  destruct r as [td'|e].
  - destruct Hres as (a & rt & _ & _ & Hfile & _).
    unfold stored at 1. rewrite Hfile. simpl. by apply lookup_insert_ne.
  - unfold stored. by rewrite Hres.
Qed.

(** The exceptions [save_tokens] can raise. *)
Lemma save_tokens_raise_keys provider td w e w' :
  save_tokens provider td w = (Raise e, w') →
  e = TypeError ∨ e = KeyError "access_token" ∨ e = KeyError "refresh_token".
Proof.
  unfold save_tokens, bind, _load_store, _save_store, getitem, py_add, time_time, ret, raise.
  destruct (has_key "expires_at" td); simpl;
    [|destruct (has_key "expires_in" td) eqn:Hin; simpl].
  - destruct (td !! "access_token"); simpl; [|intros [= <- _]; eauto].
    destruct (td !! "refresh_token"); simpl; intros [= <- _] || discriminate; eauto.
  - apply has_key_true in Hin as [v Hv]. rewrite Hv. simpl.
    destruct (as_int v); simpl; [|intros [= <- _]; eauto].
    rewrite !lookup_insert_ne by done.
    destruct (td !! "access_token"); simpl; [|intros [= <- _]; eauto].
    destruct (td !! "refresh_token"); simpl; intros [= <- _] || discriminate; eauto.
  - destruct (td !! "access_token"); simpl; [|intros [= <- _]; eauto].
    destruct (td !! "refresh_token"); simpl; intros [= <- _] || discriminate; eauto.
Qed.

Lemma save_tokens_footprint provider td w w0 req r w' :
  posts w0 = posts w ++ [req] →
  store_file w0 = store_file w →
  save_tokens provider td w0 = (r, w') →
  footprint provider w r w'.
Proof.
  intros Hp Hf Hsave. eapply footprint_after_post; eauto.
  - by apply save_tokens_inv in Hsave as (? & _).
  - intros other Hne. eapply save_tokens_others; eauto.
  - apply save_tokens_inv in Hsave as (_ & _ & _ & _ & Hres). by destruct r.
Qed.

Section ServiceFacts.

Variable settings : Settings.

(** Every way a code exchange can go. *)
Lemma exchange_code_cases provider code w :
  (PROVIDERS settings !! provider = None ∧
   exchange_code_for_tokens settings provider code w = (Raise (KeyError provider), w)) ∨
  ∃ cfg, PROVIDERS settings !! provider = Some cfg ∧
    let w1 := log_post (exchange_request cfg code (redirect_uri_for settings provider)) w in
    (responses w (length (posts w)) = NoResponse ∧
     exchange_code_for_tokens settings provider code w = (Raise TransportError, w1)) ∨
    (∃ status body,
       responses w (length (posts w)) = Response status body ∧ is_success status = false ∧
       exchange_code_for_tokens settings provider code w =
         (Raise (HTTPStatusError status), w1)) ∨
    (∃ status,
       responses w (length (posts w)) = Response status None ∧ is_success status = true ∧
       exchange_code_for_tokens settings provider code w = (Raise JSONDecodeError, w1)) ∨
    (∃ status body,
       responses w (length (posts w)) = Response status (Some body) ∧
       is_success status = true ∧
       exchange_code_for_tokens settings provider code w = save_tokens provider body w1).
Proof.
  destruct (PROVIDERS settings !! provider) as [cfg|] eqn:Hc;
    [right|left; split; [done|by apply exchange_code_unknown]].
  exists cfg. split; [done|]. intros w1.
  unfold exchange_code_for_tokens, bind, provider_cfg, post_json, ret. rewrite Hc. simpl.
  destruct (responses w (length (posts w))) as [status body|] eqn:Hresp; [|by left].
  right. destruct (is_success status) eqn:Hok; [|left; eauto].
  right. destruct body as [body|]; [right|left]; eauto.
Qed.

Lemma exchange_code_footprint provider code w r w' :
  exchange_code_for_tokens settings provider code w = (r, w') →
  footprint provider w r w'.
Proof.
  destruct (exchange_code_cases provider code w)
    as [[_ H]|(cfg & _ & [[_ H]|[(st & b & _ & _ & H)|[(st & _ & _ & H)|(st & b & _ & _ & H)]]])];
    rewrite H.
  - intros [= <- <-]. by apply footprint_still.
  - intros [= <- <-]. eapply footprint_one_post; reflexivity.
  - intros [= <- <-]. eapply footprint_one_post; reflexivity.
  - intros [= <- <-]. eapply footprint_one_post; reflexivity.
  - intros Hsave. eapply save_tokens_footprint; [..|exact Hsave]; done.
Qed.

Lemma refresh_tokens_footprint provider w r w' :
  refresh_tokens settings provider w = (r, w') →
  footprint provider w r w'.
Proof.
  destruct (refresh_tokens_cases settings provider w)
    as [H|[H|[(cfg&sent&e&H&_)|(cfg&sent&td&H)]]]; rewrite H.
  - intros [= <- <-]. by apply footprint_still.
  - intros [= <- <-]. by apply footprint_still.
  - intros [= <- <-]. eapply footprint_one_post; reflexivity.
  - intros Hsave. eapply save_tokens_footprint; [..|exact Hsave]; done.
Qed.

(** The expiry check reads the clock at most and changes nothing else. *)
Lemma is_token_expired_still provider w r w' :
  is_token_expired provider w = (r, w') →
  posts w' = posts w ∧ store_file w' = store_file w ∧ refresh_calls w' = refresh_calls w ∧
  responses w' = responses w.
Proof.
  unfold is_token_expired, bind, get_tokens, _load_store, getitem, py_sub, time_time, ret, raise.
  simpl. destruct (stored w !! provider) as [tokens|]; [|by intros [= <- <-]].
  destruct (dict_truthy tokens); simpl; [|by intros [= <- <-]].
  destruct (tokens !! "expires_at") as [v|]; simpl; [|by intros [= <- <-]].
  destruct (as_int v); simpl; by intros [= <- <-].
Qed.

Lemma footprint_shift {A} provider w w1 (r : Result A) w' :
  posts w1 = posts w → store_file w1 = store_file w →
  footprint provider w1 r w' → footprint provider w r w'.
Proof.
  intros Hp Hf (Hposts & Hother & Hr). unfold footprint, stored in *.
  rewrite <- Hp, <- Hf. done.
Qed.

(** A refresh that returns has stored the access token it returns. *)
Lemma refresh_tokens_ok provider w td w' :
  refresh_tokens settings provider w = (Ok td, w') →
  ∃ a rec, td !! "access_token" = Some a ∧
           stored w' !! provider = Some rec ∧ rec !! "access_token" = Some a.
Proof.
  destruct (refresh_tokens_cases settings provider w)
    as [H|[H|[(cfg&sent&e&H&_)|(cfg&sent&td0&H)]]]; rewrite H; try discriminate.
  intros Hsave. apply save_tokens_inv in Hsave as (_ & _ & _ & _ & Hres).
  destruct Hres as (a & rt & Ha & _ & Hfile & _).
  exists a, (token_record a rt (default (JNum 0) (td !! "expires_at"))).
  split; [done|]. unfold stored. rewrite Hfile. simpl. rewrite lookup_insert_eq.
  split; [done|]. apply token_record_access.
Qed.

Lemma get_valid_access_token_footprint provider w r w' :
  get_valid_access_token settings provider w = (r, w') →
  footprint provider w r w'.
Proof.
  unfold get_valid_access_token. unfold bind at 1.
  destruct (is_token_expired provider w) as [[[|]|e] w1] eqn:Hexp;
    apply is_token_expired_still in Hexp as (Hp & Hf & _).
  - unfold bind.
    destruct (refresh_tokens settings provider w1) as [[td|e] w2] eqn:Href.
    + destruct (refresh_tokens_ok _ _ _ _ Href) as (a & rec & Ha & _).
      apply refresh_tokens_footprint in Href.
      unfold getitem, ret. rewrite Ha. intros [= <- <-]. by eapply footprint_shift.
    + apply refresh_tokens_footprint in Href.
      intros [= <- <-]. by eapply footprint_shift.
  - unfold bind, get_tokens, _load_store, getitem, ret, raise. simpl.
    destruct (stored w1 !! provider) as [tokens|];
      [destruct (dict_truthy tokens); simpl; [destruct (tokens !! "access_token")|]|];
      intros [= <- <-]; by apply footprint_still.
  - intros [= <- <-]. by apply footprint_still.
Qed.

End ServiceFacts.

(** X9. Each service call for a provider adds at most one POST to the
    network log, leaves the records of all other providers as they were,
    and leaves the store file untouched when it raises. *)
Theorem service_calls_have_small_footprint settings provider code w :
  footprint provider w
    (fst (exchange_code_for_tokens settings provider code w))
    (snd (exchange_code_for_tokens settings provider code w)) ∧
  footprint provider w
    (fst (refresh_tokens settings provider w))
    (snd (refresh_tokens settings provider w)) ∧
  footprint provider w
    (fst (get_valid_access_token settings provider w))
    (snd (get_valid_access_token settings provider w)).
Proof.
  split; [|split].
  - apply exchange_code_footprint with (settings := settings) (code := code).
    apply surjective_pairing.
  - apply refresh_tokens_footprint with (settings := settings). apply surjective_pairing.
  - apply get_valid_access_token_footprint with (settings := settings).
    apply surjective_pairing.
Qed.

(** X10. Whenever [get_valid_access_token] returns a token, that token is the
    access_token of the record stored for the provider when it returns. *)
Theorem returned_token_is_the_stored_one settings provider w a w' :
  get_valid_access_token settings provider w = (Ok a, w') →
  ∃ rec, stored w' !! provider = Some rec ∧ rec !! "access_token" = Some a.
Proof.
  unfold get_valid_access_token. unfold bind at 1.
  destruct (is_token_expired provider w) as [[[|]|e] w1] eqn:Hexp; [| |discriminate].
  - unfold bind.
    destruct (refresh_tokens settings provider w1) as [[td|e] w2] eqn:Href; [|discriminate].
    destruct (refresh_tokens_ok _ _ _ _ _ Href) as (a' & rec & Ha & Hs & Hrec).
    unfold getitem, ret. rewrite Ha. intros [= <- <-]. eauto.
  - unfold bind, get_tokens, _load_store, getitem, ret, raise. simpl.
    destruct (stored w1 !! provider) as [tokens|] eqn:Hs; [|discriminate].
    destruct (dict_truthy tokens); simpl; [|discriminate].
    destruct (tokens !! "access_token") as [a'|] eqn:Ha; [|discriminate].
    intros [= <- <-]. eauto.
Qed.

(** X11. A code exchange for a supported provider that is answered with a
    status outside 200..299 raises httpx's status error carrying that
    status; the one POST has been made and the store file is untouched. *)
Theorem exchange_upstream_failure settings provider code cfg w status body :
  PROVIDERS settings !! provider = Some cfg →
  responses w (length (posts w)) = Response status body →
  is_success status = false →
  ∃ w',
    exchange_code_for_tokens settings provider code w = (Raise (HTTPStatusError status), w') ∧
    posts w' = posts w ++ [exchange_request cfg code (redirect_uri_for settings provider)] ∧
    store_file w' = store_file w.
Proof.
  intros Hc Hresp Hok.
  unfold exchange_code_for_tokens, bind, provider_cfg, post_json, ret. rewrite Hc. simpl.
  rewrite Hresp, Hok. eexists. split; [reflexivity|]. done.
Qed.

(** X12. A refresh that is answered with a status outside 200..299 raises
    httpx's status error; the POST carried the stored refresh token, and the
    stored record is kept as it was. *)
Theorem refresh_upstream_failure settings provider cfg w tokens R1 status body :
  PROVIDERS settings !! provider = Some cfg →
  stored w !! provider = Some tokens →
  tokens !! "refresh_token" = Some R1 →
  truthy R1 = true →
  responses w (length (posts w)) = Response status body →
  is_success status = false →
  ∃ w',
    refresh_tokens settings provider w = (Raise (HTTPStatusError status), w') ∧
    posts w' = posts w ++ [refresh_request cfg R1] ∧
    stored w' !! provider = Some tokens ∧
    store_file w' = store_file w.
Proof.
  intros Hc Hs Hr Ht Hresp Hok.
  refresh_to_post Hc Hs Hr Ht. rewrite Hresp, Hok.
  eexists. split; [reflexivity|]. simpl. by rewrite Hs.
Qed.

(** X13. Unlike a refresh, a code exchange does not fall back on a stored
    refresh token: when the 2xx answer has no refresh_token field the call
    raises after its POST and stores nothing. *)
Theorem exchange_without_refresh_token_stores_nothing
    settings provider code cfg w status body :
  PROVIDERS settings !! provider = Some cfg →
  responses w (length (posts w)) = Response status (Some body) →
  is_success status = true →
  body !! "refresh_token" = None →
  ∃ e w',
    exchange_code_for_tokens settings provider code w = (Raise e, w') ∧
    (e = TypeError ∨ e = KeyError "access_token" ∨ e = KeyError "refresh_token") ∧
    posts w' = posts w ++ [exchange_request cfg code (redirect_uri_for settings provider)] ∧
    store_file w' = store_file w.
Proof.
  intros Hc Hresp Hok Hnone.
  rewrite (exchange_code_2xx _ _ _ _ _ _ _ Hc Hresp Hok).
  destruct (save_tokens _ _ _) as [[td|e] w'] eqn:Hsave.
  - apply save_tokens_inv in Hsave as (_ & _ & _ & _ & (a & rt & _ & Hrt & _ & Hshape)).
    destruct Hshape as [[-> _]|(_ & v & ein & _ & _ & ->)]; [congruence|].
    rewrite lookup_insert_ne in Hrt by done. congruence.
  - exists e, w'. split; [done|].
    pose proof (save_tokens_raise_keys _ _ _ _ _ Hsave) as Hcause.
    apply save_tokens_inv in Hsave as (Hposts & _ & _ & _ & Hfile).
    by repeat split.
Qed.

(** X14. A refresh for a supported provider that has no stored truthy
    refresh token (no record, or a record whose refresh_token is missing,
    null, empty, zero or false) raises the not-authenticated [ValueError]
    without any POST and without touching the store file. *)
Theorem refresh_needs_usable_refresh_token settings provider cfg w :
  PROVIDERS settings !! provider = Some cfg →
  (∀ tokens R, stored w !! provider = Some tokens →
               tokens !! "refresh_token" = Some R → truthy R = false) →
  ∃ w',
    refresh_tokens settings provider w =
      (Raise (ValueError (no_refresh_token_msg provider)), w') ∧
    posts w' = posts w ∧ store_file w' = store_file w.
Proof.
  intros Hc Hfalsy. exists (log_refresh provider w). split; [|done].
  destruct (stored w !! provider) as [tokens|] eqn:Hs;
    [|by eapply refresh_tokens_no_record].
  eapply refresh_tokens_falsy; eauto.
  destruct (tokens !! "refresh_token") as [R|] eqn:Hr; [|done]. simpl. eauto.
Qed.

(** X15. The rotation rule tests for the key, not for a usable value: a 2xx
    refresh answer whose refresh_token is falsy (JSON null, say) is stored
    as it is, and the next refresh of that record raises the
    not-authenticated [ValueError] without a POST. *)
Theorem falsy_refresh_token_in_answer_locks_out
    settings provider cfg w tokens R1 status body R2 td w1 :
  PROVIDERS settings !! provider = Some cfg →
  stored w !! provider = Some tokens →
  tokens !! "refresh_token" = Some R1 →
  truthy R1 = true →
  responses w (length (posts w)) = Response status (Some body) →
  is_success status = true →
  body !! "refresh_token" = Some R2 →
  truthy R2 = false →
  refresh_tokens settings provider w = (Ok td, w1) →
  (∃ rec, stored w1 !! provider = Some rec ∧ rec !! "refresh_token" = Some R2) ∧
  ∀ w2, stored w2 !! provider = stored w1 !! provider →
    refresh_tokens settings provider w2 =
      (Raise (ValueError (no_refresh_token_msg provider)), log_refresh provider w2).
Proof.
  intros Hc Hs Hr Ht Hresp Hok Hbody Hfalsy.
  rewrite (refresh_tokens_2xx _ _ _ _ _ _ _ _ Hc Hs Hr Ht Hresp Hok).
  assert (has_key "refresh_token" body = true) as -> by (apply has_key_true; eauto).
  intros Hsave. apply save_tokens_inv in Hsave as (_ & _ & _ & _ & Hres).
  destruct Hres as (a & rt & Ha & Hrt & Hfile & Hshape).
  assert (rt = R2) as ->.
  { destruct Hshape as [[-> _]|(_ & v & ein & _ & _ & ->)]; [congruence|].
    rewrite lookup_insert_ne in Hrt by done. congruence. }
  assert (stored w1 !! provider =
            Some (token_record a R2 (default (JNum 0) (td !! "expires_at")))) as Hs1.
  { unfold stored. rewrite Hfile. simpl. apply lookup_insert_eq. }
  split; [eexists; split; [exact Hs1|apply token_record_refresh]|].
  intros w2 Hs2. rewrite Hs1 in Hs2.
  eapply refresh_tokens_falsy; [exact Hc|exact Hs2|].
  by rewrite token_record_refresh.
Qed.

(** X16. Expired, then valid again: when [get_valid_access_token] finds the
    token expired and the refresh is answered 2xx with an access_token and
    an integer expires_in (no expires_at), it returns the new access_token
    after exactly one POST, and a following call made while the clock is
    still within the new buffer returns the same token with no further
    POST. *)
Theorem refreshed_token_is_served_next
    settings provider cfg w tokens v e R1 status body a vin n :
  PROVIDERS settings !! provider = Some cfg →
  stored w !! provider = Some tokens →
  tokens !! "expires_at" = Some v →
  as_int v = Some e →
  tokens !! "refresh_token" = Some R1 →
  truthy R1 = true →
  (inject_Z e - clock w (ticks w) < inject_Z 300)%Q →
  responses w (length (posts w)) = Response status (Some body) →
  is_success status = true →
  body !! "access_token" = Some a →
  body !! "expires_at" = None →
  body !! "expires_in" = Some vin →
  as_int vin = Some n →
  (clock w (S (S (ticks w))) <=
     inject_Z (int_of_time (clock w (S (ticks w))) + n - 300))%Q →
  ∃ w1,
    get_valid_access_token settings provider w = (Ok a, w1) ∧
    get_valid_access_token settings provider w1 = (Ok a, tick w1) ∧
    posts (tick w1) = posts w ++ [refresh_request cfg R1].
Proof.
  intros Hc Hs Hv He Hr Ht Hexpired Hresp Hok Ha Hat Hin Hn Hfresh.
  pose proof (is_token_expired_record _ _ _ _ _ Hs Hv He) as Hexp.
  apply time_gt_buffer in Hexpired. rewrite Hexpired in Hexp.
  rewrite (get_valid_access_token_expired _ _ _ _ Hexp).
  unfold bind at 1.
  rewrite (refresh_tokens_2xx settings provider cfg (tick w) tokens R1 status body
             Hc Hs Hr Ht Hresp Hok).
  set (td := if has_key "refresh_token" body then body else <["refresh_token" := R1]> body).
  assert (td !! "access_token" = Some a ∧ is_Some (td !! "refresh_token") ∧
          td !! "expires_at" = None ∧ td !! "expires_in" = Some vin)
    as (Ha' & [rt Hrt] & Hat' & Hin').
  { subst td. destruct (has_key "refresh_token" body) eqn:Hk.
    - apply has_key_true in Hk. done.
    - rewrite lookup_insert_eq, !lookup_insert_ne by done. eauto. }
  rewrite (save_tokens_relative _ _ _ _ _ _ _ Ha' Hrt Hat' Hin' Hn). simpl.
  unfold getitem, ret. rewrite lookup_insert_ne by done. rewrite Ha'.
  eexists. split; [reflexivity|].
  match goal with |- get_valid_access_token _ _ ?x = _ ∧ _ => set (w1 := x) end.
  assert (stored w1 !! provider =
            Some (token_record a rt (JNum (int_of_time (clock w (S (ticks w))) + n)))) as Hs1.
  { subst w1. rewrite stored_set_store_file. apply lookup_insert_eq. }
  pose proof (is_token_expired_record provider w1 _ _ _ Hs1
                (token_record_expires _ _ _) eq_refl) as Hexp1.
  apply time_gt_false in Hfresh.
  change (clock w1 (ticks w1)) with (clock w (S (S (ticks w)))) in Hexp1.
  rewrite Hfresh in Hexp1.
  split; [|reflexivity].
  eapply get_valid_access_token_valid; [exact Hexp1|exact Hs1|apply token_record_access].
Qed.

(** X17. For a supported provider the authorization URL is the provider's
    auth URL followed by client_id, redirect_uri, response_type=code and
    scope, each value inserted as it is; building it changes nothing; and
    the redirect_uri it names is the one the code exchange posts, together
    with the code and grant_type=authorization_code, to the token URL. *)
Theorem redirect_uri_is_shared settings provider code cfg w :
  PROVIDERS settings !! provider = Some cfg →
  let redirect_uri := app_base_url settings +:+ "/auth/" +:+ provider +:+ "/callback" in
  get_authorize_url settings provider w =
    (Ok (auth_url cfg +:+ "?client_id=" +:+ client_id cfg () +:+
         "&redirect_uri=" +:+ redirect_uri +:+
         "&response_type=code&scope=" +:+ scopes cfg), w) ∧
  ∃ req,
    posts (snd (exchange_code_for_tokens settings provider code w)) = posts w ++ [req] ∧
    req_url req = token_url cfg ∧
    ("redirect_uri", JStr redirect_uri) ∈ req_data req ∧
    ("code", JStr code) ∈ req_data req ∧
    ("grant_type", JStr "authorization_code") ∈ req_data req.
Proof.
  intros Hc redirect_uri. split.
  - unfold get_authorize_url, bind, provider_cfg, ret. rewrite Hc. reflexivity.
  - exists (exchange_request cfg code (redirect_uri_for settings provider)).
    split; [|split; [reflexivity|]].
    + destruct (exchange_code_cases settings provider code w)
        as [[Hn _]|(cfg' & Hc' & [[_ H]|[(st & b & _ & _ & H)|[(st & _ & _ & H)
             |(st & b & _ & _ & H)]]])]; [congruence|..];
        assert (cfg' = cfg) as -> by congruence; rewrite H; try reflexivity.
      destruct (save_tokens _ _ _) as [r w'] eqn:Hsave. simpl.
      by apply save_tokens_inv in Hsave as (-> & _).
    + unfold exchange_request, redirect_uri_for. simpl.
      rewrite !elem_of_cons. subst redirect_uri. tauto.
Qed.

(** ** Route handlers *)

Lemma validate_provider_supported provider w :
  provider = "strava" ∨ provider = "whoop" →
  _validate_provider provider w = (Ok tt, w).
Proof.
  intros H. unfold _validate_provider. rewrite bool_decide_eq_true_2; [done|].
  unfold SUPPORTED_PROVIDERS. rewrite !elem_of_cons. tauto.
Qed.

Lemma validate_provider_unknown provider w :
  provider ≠ "strava" → provider ≠ "whoop" →
  _validate_provider provider w =
    (Raise (HTTPException 400 ("Unknown provider: " +:+ provider)), w).
Proof.
  intros Hs Hw. unfold _validate_provider. rewrite bool_decide_eq_false_2; [done|].
  unfold SUPPORTED_PROVIDERS. rewrite !elem_of_cons, elem_of_nil. tauto.
Qed.

(** X18. Every route that takes a provider id answers an id other than
    "strava" and "whoop" with HTTP 400 "Unknown provider: ..." before it
    touches the store, the clock or the network. *)
Theorem routes_reject_unknown_provider settings str_exn provider code error w :
  provider ≠ "strava" →
  provider ≠ "whoop" →
  login settings provider w =
    (Raise (HTTPException 400 ("Unknown provider: " +:+ provider)), w) ∧
  callback settings str_exn provider code error w =
    (Raise (HTTPException 400 ("Unknown provider: " +:+ provider)), w) ∧
  provider_status settings provider w =
    (Raise (HTTPException 400 ("Unknown provider: " +:+ provider)), w) ∧
  logout provider w =
    (Raise (HTTPException 400 ("Unknown provider: " +:+ provider)), w).
Proof.
  intros Hs Hw. pose proof (validate_provider_unknown provider w Hs Hw) as Hv.
  unfold login, callback, provider_status, logout.
  repeat split; unfold bind at 1; by rewrite Hv.
Qed.

(** X19. The early exits of the callback for a supported provider: a
    non-empty error parameter is echoed in an error answer whatever the code
    parameter is, and with no error a missing or empty code is answered
    with HTTP 400; in both cases nothing is posted, read or stored. *)
Theorem callback_early_exits settings str_exn provider w :
  provider = "strava" ∨ provider = "whoop" →
  (∀ code err, err ≠ "" →
     callback settings str_exn provider code (Some err) w =
       (Ok {[ "status" := JStr "error"; "provider" := JStr provider;
              "detail" := JStr err ]}, w)) ∧
  (∀ code error, param_truthy error = false → param_truthy code = false →
     callback settings str_exn provider code error w =
       (Raise (HTTPException 400 "No authorization code received"), w)).
Proof.
  intros Hsup. pose proof (validate_provider_supported provider w Hsup) as Hv. split.
  - intros code err Hne. unfold callback. unfold bind at 1. rewrite Hv.
    assert (param_truthy (Some err) = true) as ->; [|done].
    simpl. apply negb_true_iff, String.eqb_neq. done.
  - intros code error He Hcode. unfold callback. unfold bind at 1. rewrite Hv.
    by rewrite He, Hcode.
Qed.

(** X20. The callback lets no exception of the service through: whatever
    its arguments and the world, the only exception it raises is an
    HTTPException with status 400 or 500. *)
Theorem callback_raises_only_http_errors settings str_exn provider code error w e w' :
  callback settings str_exn provider code error w = (Raise e, w') →
  ∃ status detail, e = HTTPException status detail ∧ (status = 400 ∨ status = 500).
Proof.
  unfold callback. unfold bind at 1. unfold _validate_provider.
  destruct (bool_decide _); unfold ret, raise; [|intros [= <- _]; eauto].
  destruct (param_truthy error); [discriminate|].
  destruct (param_truthy code); simpl; [|intros [= <- _]; eauto].
  unfold try_except.
  destruct (bind _ _ w) as [[d|e0] w0]; [discriminate|].
  intros [= <- _]. eauto.
Qed.

(** X21. When the callback answers "success", the provider's record is in
    the store, its access_token is a string, and the token_preview in the
    answer is the first 15 characters of that string followed by "...". *)
Theorem callback_success_means_stored settings str_exn provider code error w d w' :
  callback settings str_exn provider code error w = (Ok d, w') →
  d !! "status" = Some (JStr "success") →
  ∃ s rec,
    stored w' !! provider = Some rec ∧
    rec !! "access_token" = Some (JStr s) ∧
    d !! "token_preview" = Some (JStr (String.substring 0 15 s +:+ "...")).
Proof.
  unfold callback. unfold bind at 1. unfold _validate_provider.
  destruct (bool_decide _); unfold ret, raise; [|discriminate].
  destruct (param_truthy error).
  { intros [= <- _]. rewrite lookup_insert_eq. discriminate. }
  destruct (param_truthy code); simpl; [|discriminate].
  unfold try_except, bind.
  destruct (exchange_code_for_tokens _ _ _ w) as [[td|e0] w0] eqn:Hex; [|discriminate].
  assert (∃ a rec, td !! "access_token" = Some a ∧ stored w0 !! provider = Some rec ∧
                   rec !! "access_token" = Some a) as (a & rec & Ha & Hs & Hrec).
  { destruct (exchange_code_cases settings provider (default "" code) w)
      as [[_ H]|(cfg & _ & [[_ H]|[(st & b & _ & _ & H)|[(st & _ & _ & H)
           |(st & b & _ & _ & H)]]])]; rewrite H in Hex; try discriminate.
    apply save_tokens_inv in Hex as (_ & _ & _ & _ & (a & rt & Ha & _ & Hfile & _)).
    exists a, (token_record a rt (default (JNum 0) (td !! "expires_at"))).
    split; [done|]. unfold stored. rewrite Hfile. simpl. rewrite lookup_insert_eq.
    split; [done|]. apply token_record_access. }
  unfold getitem, ret. rewrite Ha.
  destruct a as [| | |s| |]; simpl; try discriminate.
  intros [= <- <-] _. exists s, rec. split; [done|]. split; [done|].
  by simplify_map_eq.
Qed.

(** X22. The callback can answer 500 after the tokens were stored: when the
    2xx answer of the provider carries a number as access_token (with a
    refresh_token and no expiry to normalise), the record is written and the
    preview of the token then fails. *)
Theorem callback_fails_after_storing
    settings str_exn provider cfg code w status body z rt :
  PROVIDERS settings !! provider = Some cfg →
  code ≠ "" →
  responses w (length (posts w)) = Response status (Some body) →
  is_success status = true →
  body !! "access_token" = Some (JNum z) →
  body !! "refresh_token" = Some rt →
  body !! "expires_in" = None →
  ∃ w',
    callback settings str_exn provider (Some code) None w =
      (Raise (HTTPException 500 ("Token exchange failed: " +:+ str_exn TypeError)), w') ∧
    stored w' !! provider =
      Some (token_record (JNum z) rt (default (JNum 0) (body !! "expires_at"))).
Proof.
  intros Hc Hcode Hresp Hok Ha Hrt Hin.
  assert (provider = "strava" ∨ provider = "whoop") as Hsup
    by (apply (PROVIDERS_supported settings); eauto).
  unfold callback. unfold bind at 1. rewrite (validate_provider_supported _ _ Hsup).
  assert (param_truthy (Some code) = true) as ->.
  { simpl. by apply negb_true_iff, String.eqb_neq. }
  simpl. unfold try_except, bind.
  rewrite (exchange_code_2xx _ _ _ _ _ _ _ Hc Hresp Hok).
  rewrite (save_tokens_plain _ _ _ _ _ Ha Hrt (or_intror Hin)).
  unfold getitem, ret. rewrite Ha. simpl. unfold raise.
  eexists. split; [reflexivity|].
  rewrite stored_set_store_file. apply lookup_insert_eq.
Qed.

(** X23. For a supported provider the status route never raises.  With no
    (or an empty) record it answers "Not connected" and changes nothing;
    otherwise it runs [get_valid_access_token], which may refresh, and
    answers "Connected" exactly when that call returns a token. *)
Theorem provider_status_never_raises settings provider w :
  provider = "strava" ∨ provider = "whoop" →
  ∃ d w',
    provider_status settings provider w = (Ok d, w') ∧
    d !! "provider" = Some (JStr provider) ∧
    if opt_dict_truthy (stored w !! provider) then
      w' = snd (get_valid_access_token settings provider w) ∧
      match fst (get_valid_access_token settings provider w) with
      | Ok _ => d !! "authenticated" = Some (JBool true) ∧
                d !! "message" = Some (JStr "Connected")
      | Raise _ => d !! "authenticated" = Some (JBool false) ∧
                   d !! "message" = Some (JStr "Token expired, re-auth needed")
      end
    else
      w' = w ∧ d !! "authenticated" = Some (JBool false) ∧
      d !! "message" = Some (JStr "Not connected").
Proof.
  intros Hsup. unfold provider_status. unfold bind at 1.
  rewrite (validate_provider_supported _ _ Hsup).
  unfold bind at 1. rewrite get_tokens_eq.
  destruct (opt_dict_truthy (stored w !! provider)); simpl.
  - unfold try_except, bind.
    destruct (get_valid_access_token settings provider w) as [[a|e] w0]; simpl;
      eexists _, _; (split; [reflexivity|]); by simplify_map_eq.
  - eexists _, _. split; [reflexivity|]. by simplify_map_eq.
Qed.

(** X24. Logging out of a supported provider always returns, posts nothing,
    and the status route then answers "Not connected" without touching the
    world again. *)
Theorem logout_then_status_not_connected settings provider w :
  provider = "strava" ∨ provider = "whoop" →
  ∃ w1,
    logout provider w =
      (Ok {[ "provider" := JStr provider; "message" := JStr "Tokens removed" ]}, w1) ∧
    posts w1 = posts w ∧
    stored w1 = delete provider (stored w) ∧
    provider_status settings provider w1 =
      (Ok {[ "provider" := JStr provider; "authenticated" := JBool false;
             "message" := JStr "Not connected" ]}, w1).
Proof.
  intros Hsup. unfold logout. unfold bind at 1.
  rewrite (validate_provider_supported _ _ Hsup).
  unfold bind, delete_tokens, _load_store, _save_store, ret. simpl.
  eexists. split; [reflexivity|]. split; [done|]. split; [done|].
  unfold provider_status. unfold bind at 1.
  rewrite (validate_provider_supported _ _ Hsup).
  unfold bind at 1. rewrite get_tokens_eq, stored_set_store_file, lookup_delete_eq.
  reflexivity.
Qed.

Lemma all_status_entry_returns settings provider w :
  ∃ b msg w',
    all_status_entry settings provider w =
      (Ok {[ "authenticated" := JBool b; "message" := JStr msg ]}, w') ∧
    (opt_dict_truthy (stored w !! provider) = false → b = false ∧ w' = w).
Proof.
  unfold all_status_entry. unfold bind at 1. rewrite get_tokens_eq.
  destruct (opt_dict_truthy (stored w !! provider)); simpl.
  - unfold try_except, bind.
    destruct (get_valid_access_token settings provider w) as [[a|e] w0]; simpl;
      eexists _, _, _; (split; [reflexivity|]); done.
  - eexists _, _, _. split; [reflexivity|]. done.
Qed.

(** X25. The overall status route never raises and reports on exactly the
    two supported providers, each with an authenticated flag and a message;
    while the store holds no record it reports both as not authenticated
    and changes nothing. *)
Theorem all_status_never_raises settings w :
  ∃ results w',
    all_status settings w = (Ok results, w') ∧
    dom results = ({[ "strava"; "whoop" ]} : gset string) ∧
    (∀ provider entry, results !! provider = Some entry →
       ∃ b msg, entry = {[ "authenticated" := JBool b; "message" := JStr msg ]}) ∧
    (stored w = ∅ →
       w' = w ∧
       ∀ provider entry, results !! provider = Some entry →
         entry !! "authenticated" = Some (JBool false)).
Proof.
  unfold all_status, SUPPORTED_PROVIDERS. simpl.
  destruct (all_status_entry_returns settings "strava" w) as (b1 & m1 & w1 & H1 & Hn1).
  unfold bind at 1. rewrite H1.
  destruct (all_status_entry_returns settings "whoop" w1) as (b2 & m2 & w2 & H2 & Hn2).
  unfold bind at 1. rewrite H2. unfold ret.
  eexists _, _. split; [reflexivity|]. split; [|split].
  - rewrite !dom_insert_L, dom_empty_L. set_solver.
  - intros provider entry.
    destruct (decide (provider = "whoop")) as [->|Hw].
    { rewrite lookup_insert_eq. intros [= <-]. eauto. }
    rewrite lookup_insert_ne by done.
    destruct (decide (provider = "strava")) as [->|Hs].
    { rewrite lookup_insert_eq. intros [= <-]. eauto. }
    rewrite lookup_insert_ne by done. by rewrite lookup_empty.
  - intros Hempty.
    destruct Hn1 as [-> ->]; [by rewrite Hempty, lookup_empty|].
    destruct Hn2 as [-> ->]; [by rewrite Hempty, lookup_empty|].
    split; [done|]. intros provider entry.
    destruct (decide (provider = "whoop")) as [->|Hw].
    { rewrite lookup_insert_eq. intros [= <-]. by simplify_map_eq. }
    rewrite lookup_insert_ne by done.
    destruct (decide (provider = "strava")) as [->|Hs].
    { rewrite lookup_insert_eq. intros [= <-]. by simplify_map_eq. }
    rewrite lookup_insert_ne by done. by rewrite lookup_empty.
Qed.

(** ** Strava client *)

Section Pagination.

Variable settings : Settings.
Variable cutoff : Q → Z → Result Z.

(** One page request made while the stored Strava token is within its
    buffer: the clock is read twice, no POST is made, and the call is the
    GET with the stored access token. *)
Lemma get_activities_valid days per_page page aw tokens a v e after :
  stored (auth_world aw) !! "strava" = Some tokens →
  tokens !! "access_token" = Some a →
  tokens !! "expires_at" = Some v →
  as_int v = Some e →
  (clock (auth_world aw) (S (ticks (auth_world aw))) <= inject_Z (e - 300))%Q →
  cutoff (clock (auth_world aw) (ticks (auth_world aw))) days = Ok after →
  get_activities settings cutoff days per_page page aw =
    get_json (BASE_URL +:+ "/athlete/activities") a
      [ ("after", JNum after); ("per_page", JNum per_page); ("page", JNum page) ]
      (mkApiWorld (tick (tick (auth_world aw))) (get_answers aw) (gets aw)).
Proof.
  intros Hs Ha Hv He Hvalid Hcut.
  unfold get_activities, api_bind, lift_auth, time_time. simpl. rewrite Hcut.
  unfold _get, api_bind, lift_auth. simpl.
  assert (stored (tick (auth_world aw)) !! "strava" = Some tokens) as Hs1 by exact Hs.
  pose proof (is_token_expired_record _ _ _ _ _ Hs1 Hv He) as Hexp.
  apply time_gt_false in Hvalid. simpl in Hexp. rewrite Hvalid in Hexp.
  by rewrite (get_valid_access_token_valid settings _ _ _ _ _ Hexp Hs1 Ha).
Qed.

(** The same page request, answered. *)
Lemma get_activities_answered days per_page page aw tokens a v e after status body :
  stored (auth_world aw) !! "strava" = Some tokens →
  tokens !! "access_token" = Some a →
  tokens !! "expires_at" = Some v →
  as_int v = Some e →
  (clock (auth_world aw) (S (ticks (auth_world aw))) <= inject_Z (e - 300))%Q →
  cutoff (clock (auth_world aw) (ticks (auth_world aw))) days = Ok after →
  get_answers aw (length (gets aw)) = GetResponse status body →
  get_activities settings cutoff days per_page page aw =
    (if is_success status
     then match body with Some b => Ok b | None => Raise JSONDecodeError end
     else Raise (HTTPStatusError status),
     mkApiWorld (tick (tick (auth_world aw))) (get_answers aw)
       (gets aw ++
        [mkGetRequest (BASE_URL +:+ "/athlete/activities") a
           [ ("after", JNum after); ("per_page", JNum per_page); ("page", JNum page) ]])).
Proof.
  intros Hs Ha Hv He Hvalid Hcut Hanswer.
  rewrite (get_activities_valid _ _ _ _ _ _ _ _ _ Hs Ha Hv He Hvalid Hcut).
  unfold get_json. simpl. rewrite Hanswer.
  destruct (is_success status); [destruct body|]; reflexivity.
Qed.

(** One turn of the pagination loop, spelled out. *)
Lemma get_all_activities_loop_turn fuel days acc page aw :
  get_all_activities_loop settings cutoff (S fuel) days acc page aw =
    match get_activities settings cutoff days 200 page aw with
    | (Raise e, aw1) => (Raise e, aw1)
    | (Ok batch, aw1) =>
        if truthy batch then
          match py_iter batch aw1 with
          | (Raise e, aw2) => (Raise e, aw2)
          | (Ok items, aw2) =>
              match py_len batch aw2 with
              | (Raise e, aw3) => (Raise e, aw3)
              | (Ok n, aw3) =>
                  if n <? 200 then (Ok (Some (acc ++ items)), aw3)
                  else get_all_activities_loop settings cutoff fuel days
                         (acc ++ items) (page + 1) aw3
              end
          end
        else (Ok (Some acc), aw1)
    end.
Proof.
  cbn [get_all_activities_loop]. unfold api_bind.
  destruct (get_activities settings cutoff days 200 page aw) as [[batch|e] aw1];
    [|reflexivity].
  destruct (truthy batch); cbn beta iota delta [negb]; [|reflexivity].
  destruct (py_iter batch aw1) as [[items|e] aw2]; [|reflexivity].
  destruct (py_len batch aw2) as [[n|e] aw3]; [|reflexivity].
  destruct (n <? 200); reflexivity.
Qed.

Variables (days : Z) (tokens : jdict) (a v : jval) (e : Z).

Hypothesis Haccess : tokens !! "access_token" = Some a.
Hypothesis Hexpires : tokens !! "expires_at" = Some v.
Hypothesis Hinteger : as_int v = Some e.
Hypothesis Hcutoff : ∀ t, ∃ after, cutoff t days = Ok after.

(** Full pages (200 items or more) keep the loop going: after them the loop
    stands at the next page with everything received so far, one GET per
    page behind it and the token service untouched but for its clock. *)
Lemma full_pages_continue pages : ∀ fuel acc page aw,
  stored (auth_world aw) !! "strava" = Some tokens →
  (∀ n, (clock (auth_world aw) n <= inject_Z (e - 300))%Q) →
  Forall (λ p : list jval, (200 ≤ length p)%nat) pages →
  (∀ i p, pages !! i = Some p →
     get_answers aw (length (gets aw) + i)%nat = GetResponse 200 (Some (JArr p))) →
  ∃ aw',
    get_all_activities_loop settings cutoff (length pages + fuel) days acc page aw =
      get_all_activities_loop settings cutoff fuel days (acc ++ concat pages)
        (page + Z.of_nat (length pages)) aw' ∧
    store_file (auth_world aw') = store_file (auth_world aw) ∧
    clock (auth_world aw') = clock (auth_world aw) ∧
    posts (auth_world aw') = posts (auth_world aw) ∧
    get_answers aw' = get_answers aw ∧
    ∃ reqs, gets aw' = gets aw ++ reqs ∧ length reqs = length pages ∧
      ∀ i req, reqs !! i = Some req →
        get_bearer req = a ∧
        ∃ after, get_params req =
          [ ("after", JNum after); ("per_page", JNum 200);
            ("page", JNum (page + Z.of_nat i)) ].
Proof.
  induction pages as [|p pages IH]; intros fuel acc page aw Hs Hvalid Hfull Hanswers.
  - exists aw. simpl. rewrite app_nil_r, Z.add_0_r. repeat (split; [done|]).
    exists []. rewrite app_nil_r. by repeat split.
  - apply Forall_cons in Hfull as [Hp Hfull].
    destruct (Hcutoff (clock (auth_world aw) (ticks (auth_world aw)))) as [after Hafter].
    set (req := mkGetRequest (BASE_URL +:+ "/athlete/activities") a
                  [ ("after", JNum after); ("per_page", JNum 200); ("page", JNum page) ]).
    set (aw1 := mkApiWorld (tick (tick (auth_world aw))) (get_answers aw) (gets aw ++ [req])).
    destruct (IH fuel (acc ++ p) (page + 1) aw1) as
      (aw' & Hrun & Hfile & Hclock & Hposts & Hans & reqs & Hgets & Hlen & Hreqs).
    { exact Hs. }
    { exact Hvalid. }
    { exact Hfull. }
    { intros i p' Hi. subst aw1. simpl. rewrite length_app. simpl.
      replace (length (gets aw) + 1 + i)%nat with (length (gets aw) + S i)%nat by lia.
      by apply Hanswers. }
    exists aw'. split; [|split; [done|split; [done|split; [done|split; [done|]]]]].
    + change (length (p :: pages) + fuel)%nat with (S (length pages + fuel)).
      rewrite get_all_activities_loop_turn.
      pose proof (Hanswers 0%nat p eq_refl) as Hanswer. rewrite Nat.add_0_r in Hanswer.
      rewrite (get_activities_answered _ _ _ _ _ _ _ _ _ _ _ Hs Haccess Hexpires Hinteger
                 (Hvalid _) Hafter Hanswer).
      change (is_success 200) with true. cbv iota.
      assert (truthy (JArr p) = true) as -> by (destruct p; [simpl in Hp; lia|done]).
      unfold py_iter, py_len, api_ret.
      assert ((Z.of_nat (length p) <? 200) = false) as -> by (apply Z.ltb_ge; lia).
      fold req. fold aw1. rewrite Hrun.
      rewrite <- app_assoc. simpl concat.
      replace (page + 1 + Z.of_nat (length pages)) with
        (page + Z.of_nat (length (p :: pages))) by (simpl length; lia).
      reflexivity.
    + exists (req :: reqs). split; [|split].
      * rewrite Hgets. subst aw1. simpl. by rewrite <- app_assoc.
      * simpl. by rewrite Hlen.
      * intros [|i] r Hr; simpl in Hr.
        -- injection Hr as <-. split; [done|]. exists after. simpl.
           by rewrite Z.add_0_r.
        -- destruct (Hreqs i r Hr) as [Hb (after' & Hparams)]. split; [done|].
           exists after'. rewrite Hparams.
           replace (page + 1 + Z.of_nat i) with (page + Z.of_nat (S i)) by lia. done.
Qed.

(** X26. Pagination collects every page.  While the stored Strava token is
    within its buffer and the cut-off date can be computed, if the server
    answers with full pages (200 items or more each) and then with a shorter
    one, possibly empty, [get_all_activities] returns all items in order
    after one GET per page; the GETs ask for pages 1, 2, ... with
    per_page = 200 and carry the stored access token, and nothing is posted
    or stored. *)
Theorem pagination_collects_every_page pages last fuel aw :
  stored (auth_world aw) !! "strava" = Some tokens →
  (∀ n, (clock (auth_world aw) n <= inject_Z (e - 300))%Q) →
  Forall (λ p : list jval, (200 ≤ length p)%nat) pages →
  (length last < 200)%nat →
  (∀ i p, pages !! i = Some p →
     get_answers aw (length (gets aw) + i)%nat = GetResponse 200 (Some (JArr p))) →
  get_answers aw (length (gets aw) + length pages)%nat =
    GetResponse 200 (Some (JArr last)) →
  (length pages < fuel)%nat →
  ∃ aw',
    get_all_activities settings cutoff fuel days aw =
      (Ok (Some (concat pages ++ last)), aw') ∧
    (∃ reqs, gets aw' = gets aw ++ reqs ∧ length reqs = S (length pages) ∧
       ∀ i req, reqs !! i = Some req →
         get_bearer req = a ∧
         ∃ after, get_params req =
           [ ("after", JNum after); ("per_page", JNum 200);
             ("page", JNum (1 + Z.of_nat i)) ]) ∧
    posts (auth_world aw') = posts (auth_world aw) ∧
    store_file (auth_world aw') = store_file (auth_world aw).
Proof.
  intros Hs Hvalid Hfull Hshort Hanswers Hlast Hfuel.
  destruct fuel as [|fuel]; [lia|].
  replace (S fuel) with (length pages + S (fuel - length pages))%nat by lia.
  destruct (full_pages_continue pages (S (fuel - length pages)) [] 1 aw
              Hs Hvalid Hfull Hanswers)
    as (awk & Hrun & Hfile & Hclock & Hposts & Hans & reqs & Hgets & Hlen & Hreqs).
  unfold get_all_activities. rewrite Hrun. rewrite app_nil_l.
  assert (stored (auth_world awk) !! "strava" = Some tokens) as Hsk
    by (unfold stored in *; by rewrite Hfile).
  destruct (Hcutoff (clock (auth_world awk) (ticks (auth_world awk)))) as [after Hafter].
  assert (get_answers awk (length (gets awk)) = GetResponse 200 (Some (JArr last))) as Hk.
  { rewrite Hans, Hgets, length_app, Hlen. exact Hlast. }
  assert ((clock (auth_world awk) (S (ticks (auth_world awk))) <= inject_Z (e - 300))%Q)
    as Hvalidk by (rewrite Hclock; apply Hvalid).
  rewrite get_all_activities_loop_turn.
  rewrite (get_activities_answered _ _ _ _ _ _ _ _ _ _ _ Hsk Haccess Hexpires Hinteger
             Hvalidk Hafter Hk).
  change (is_success 200) with true. cbv iota.
  set (req := mkGetRequest (BASE_URL +:+ "/athlete/activities") a
                [ ("after", JNum after); ("per_page", JNum 200);
                  ("page", JNum (1 + Z.of_nat (length pages))) ]).
  assert (∃ aw',
            (if truthy (JArr last)
             then match py_iter (JArr last) (mkApiWorld (tick (tick (auth_world awk)))
                                               (get_answers awk) (gets awk ++ [req])) with
                  | (Raise e0, aw2) => (Raise e0, aw2)
                  | (Ok items, aw2) =>
                      match py_len (JArr last) aw2 with
                      | (Raise e0, aw3) => (Raise e0, aw3)
                      | (Ok n, aw3) =>
                          if n <? 200 then (Ok (Some (concat pages ++ items)), aw3)
                          else get_all_activities_loop settings cutoff
                                 (fuel - length pages) days (concat pages ++ items)
                                 (1 + Z.of_nat (length pages) + 1) aw3
                      end
                  end
             else (Ok (Some (concat pages)),
                   mkApiWorld (tick (tick (auth_world awk))) (get_answers awk)
                     (gets awk ++ [req]))) =
            (Ok (Some (concat pages ++ last)), aw') ∧
            aw' = mkApiWorld (tick (tick (auth_world awk))) (get_answers awk)
                    (gets awk ++ [req])) as (aw' & -> & ->).
  { destruct last as [|x last].
    - eexists. simpl. rewrite app_nil_r. done.
    - eexists. simpl truthy. cbv iota. unfold py_iter, py_len, api_ret.
      assert ((Z.of_nat (length (x :: last)) <? 200) = true) as ->
        by (apply Z.ltb_lt; lia).
      done. }
  eexists. split; [reflexivity|]. simpl.
  split; [|by rewrite Hposts, Hfile].
  exists (reqs ++ [req]). split; [by rewrite Hgets, app_assoc|].
  split; [rewrite length_app, Hlen; simpl; lia|].
  intros i r Hr. destruct (decide (i < length reqs)%nat) as [Hlt|Hge].
  - rewrite lookup_app_l in Hr by done. by apply Hreqs.
  - rewrite lookup_app_r in Hr by lia.
    destruct (i - length reqs)%nat as [|j] eqn:Hj; simpl in Hr; [|done].
    injection Hr as <-. split; [done|]. exists after. simpl.
    replace i with (length pages) by lia. done.
Qed.

(** X27. A failing page fails the whole listing: after any number of full
    pages, an answer with a status outside 200..299 makes
    [get_all_activities] raise httpx's status error; the items of the pages
    received before are not returned. *)
Theorem pagination_fails_as_a_whole pages status body fuel aw :
  stored (auth_world aw) !! "strava" = Some tokens →
  (∀ n, (clock (auth_world aw) n <= inject_Z (e - 300))%Q) →
  Forall (λ p : list jval, (200 ≤ length p)%nat) pages →
  (∀ i p, pages !! i = Some p →
     get_answers aw (length (gets aw) + i)%nat = GetResponse 200 (Some (JArr p))) →
  get_answers aw (length (gets aw) + length pages)%nat = GetResponse status body →
  is_success status = false →
  (length pages < fuel)%nat →
  ∃ aw',
    get_all_activities settings cutoff fuel days aw = (Raise (HTTPStatusError status), aw') ∧
    length (gets aw') = (length (gets aw) + S (length pages))%nat.
Proof.
  intros Hs Hvalid Hfull Hanswers Hlast Hfail Hfuel.
  destruct fuel as [|fuel]; [lia|].
  replace (S fuel) with (length pages + S (fuel - length pages))%nat by lia.
  destruct (full_pages_continue pages (S (fuel - length pages)) [] 1 aw
              Hs Hvalid Hfull Hanswers)
    as (awk & Hrun & Hfile & Hclock & Hposts & Hans & reqs & Hgets & Hlen & Hreqs).
  unfold get_all_activities. rewrite Hrun.
  assert (stored (auth_world awk) !! "strava" = Some tokens) as Hsk
    by (unfold stored in *; by rewrite Hfile).
  destruct (Hcutoff (clock (auth_world awk) (ticks (auth_world awk)))) as [after Hafter].
  assert (get_answers awk (length (gets awk)) = GetResponse status body) as Hk.
  { rewrite Hans, Hgets, length_app, Hlen. exact Hlast. }
  assert ((clock (auth_world awk) (S (ticks (auth_world awk))) <= inject_Z (e - 300))%Q)
    as Hvalidk by (rewrite Hclock; apply Hvalid).
  rewrite get_all_activities_loop_turn.
  rewrite (get_activities_answered _ _ _ _ _ _ _ _ _ _ _ Hsk Haccess Hexpires Hinteger
             Hvalidk Hafter Hk).
  rewrite Hfail. eexists. split; [reflexivity|]. simpl.
  rewrite Hgets, !length_app, Hlen. simpl. lia.
Qed.

(** X28. The loop has no page limit of its own: as long as every page the
    server sends is full, it keeps asking for the next one.  A run of the
    loop for as many turns as there are full pages is still going. *)
Theorem pagination_goes_on_while_pages_are_full pages aw :
  stored (auth_world aw) !! "strava" = Some tokens →
  (∀ n, (clock (auth_world aw) n <= inject_Z (e - 300))%Q) →
  Forall (λ p : list jval, (200 ≤ length p)%nat) pages →
  (∀ i p, pages !! i = Some p →
     get_answers aw (length (gets aw) + i)%nat = GetResponse 200 (Some (JArr p))) →
  ∃ aw',
    get_all_activities settings cutoff (length pages) days aw = (Ok None, aw') ∧
    length (gets aw') = (length (gets aw) + length pages)%nat.
Proof.
  intros Hs Hvalid Hfull Hanswers.
  destruct (full_pages_continue pages 0 [] 1 aw Hs Hvalid Hfull Hanswers)
    as (awk & Hrun & _ & _ & _ & _ & reqs & Hgets & Hlen & _).
  unfold get_all_activities. rewrite Nat.add_0_r in Hrun. rewrite Hrun.
  exists awk. split; [reflexivity|]. by rewrite Hgets, length_app, Hlen.
Qed.

End Pagination.

(** X29. Without a stored Strava record nothing is fetched: the first page
    request already fails in the token service with the not-authenticated
    [ValueError], and no GET and no POST is made. *)
Theorem listing_needs_a_token settings cutoff fuel days aw after :
  stored (auth_world aw) !! "strava" = None →
  cutoff (clock (auth_world aw) (ticks (auth_world aw))) days = Ok after →
  ∃ aw',
    get_all_activities settings cutoff (S fuel) days aw =
      (Raise (ValueError (no_refresh_token_msg "strava")), aw') ∧
    gets aw' = gets aw ∧
    posts (auth_world aw') = posts (auth_world aw) ∧
    store_file (auth_world aw') = store_file (auth_world aw).
Proof.
  intros Hnone Hcut.
  unfold get_all_activities. rewrite get_all_activities_loop_turn.
  unfold get_activities, api_bind, lift_auth, time_time. simpl. rewrite Hcut.
  unfold _get, api_bind, lift_auth. simpl.
  assert (stored (tick (auth_world aw)) !! "strava" = None) as Hnone1 by exact Hnone.
  rewrite (get_valid_access_token_expired settings _ _ _
             (is_token_expired_absent _ _ Hnone1)).
  unfold bind.
  rewrite (refresh_tokens_no_record settings "strava" (strava_cfg settings) _
             eq_refl Hnone1).
  eexists. split; [reflexivity|]. done.
Qed.

(** ** The further properties at sample worlds *)

Ltac by_eval := vm_compute; reflexivity.
Ltac q_le := first [unfold Qle; simpl; lia | vm_compute; discriminate].

Lemma save_then_get_tokens_witness :
  ∃ rec,
    get_tokens "strava"
      (snd (save_tokens "strava" token_data_without_expiry first_login_world)) =
      (Ok (Some rec),
       snd (save_tokens "strava" token_data_without_expiry first_login_world)) ∧
    dom rec = ({[ "access_token"; "refresh_token"; "expires_at" ]} : gset string) ∧
    rec !! "access_token" = token_data_without_expiry !! "access_token" ∧
    rec !! "refresh_token" = token_data_without_expiry !! "refresh_token" ∧
    rec !! "expires_at" =
      Some (default (JNum 0) (token_data_without_expiry !! "expires_at")) ∧
    dict_truthy rec = true.
Proof.
  apply (save_then_get_tokens "strava" token_data_without_expiry
           token_data_without_expiry first_login_world).
  by_eval.
Defined.

Lemma save_tokens_failure_witness :
  store_file first_login_world = store_file first_login_world ∧
  ((KeyError "refresh_token" = TypeError ∧
    token_data_without_refresh_token !! "expires_at" = None ∧
    ∃ v, token_data_without_refresh_token !! "expires_in" = Some v ∧ as_int v = None) ∨
   (KeyError "refresh_token" = KeyError "access_token" ∧
    token_data_without_refresh_token !! "access_token" = None) ∨
   (KeyError "refresh_token" = KeyError "refresh_token" ∧
    token_data_without_refresh_token !! "refresh_token" = None ∧
    is_Some (token_data_without_refresh_token !! "access_token"))).
Proof.
  apply (save_tokens_failure "strava" token_data_without_refresh_token first_login_world
           (KeyError "refresh_token") first_login_world).
  by_eval.
Defined.

Lemma save_tokens_keeps_given_expires_at_witness :
  ∃ w',
    save_tokens "strava" token_data_with_text_expiry first_login_world =
      (Ok token_data_with_text_expiry, w') ∧
    stored w' !! "strava" =
      Some (token_record (JStr "access-3") (JStr "refresh-3") (JStr "tomorrow")) ∧
    ticks w' = ticks first_login_world.
Proof.
  apply (save_tokens_keeps_given_expires_at "strava" token_data_with_text_expiry
           (JStr "access-3") (JStr "refresh-3") (JStr "tomorrow") first_login_world);
    by_eval.
Defined.

Lemma save_tokens_overwrites_witness :
  ∃ a rt,
    token_data_without_expiry !! "access_token" = Some a ∧
    token_data_without_expiry !! "refresh_token" = Some rt ∧
    stored (snd (save_tokens "strava" token_data_without_expiry
                   (snd (save_tokens "strava" token_data_with_text_expiry valid_world)))) =
      <["strava" := token_record a rt
                      (default (JNum 0) (token_data_without_expiry !! "expires_at"))]>
        (stored valid_world).
Proof.
  apply (save_tokens_overwrites "strava"
           token_data_with_text_expiry token_data_with_text_expiry
           token_data_without_expiry token_data_without_expiry
           valid_world
           (snd (save_tokens "strava" token_data_with_text_expiry valid_world))
           (snd (save_tokens "strava" token_data_without_expiry
                   (snd (save_tokens "strava" token_data_with_text_expiry valid_world)))));
    by_eval.
Defined.

Lemma save_then_delete_restores_witness :
  stored (snd (delete_tokens "whoop"
                 (snd (save_tokens "whoop" token_data_without_expiry valid_world)))) =
    stored valid_world.
Proof.
  apply (save_then_delete_restores "whoop" token_data_without_expiry valid_world).
  by_eval.
Defined.

Lemma expiry_is_monotone_witness :
  fst (is_token_expired "strava" omitting_world) = Ok true.
Proof.
  apply (expiry_is_monotone "strava" expiring_world omitting_world sample_record);
    try by_eval.
  q_le.
Defined.

Lemma non_numeric_expires_at_poisons_the_record_witness :
  ∃ w1,
    save_tokens "strava" token_data_with_text_expiry first_login_world =
      (Ok token_data_with_text_expiry, w1) ∧
    stored w1 !! "strava" =
      Some (token_record (JStr "access-3") (JStr "refresh-3") (JStr "tomorrow")) ∧
    ∀ w2, stored w2 !! "strava" = stored w1 !! "strava" →
      is_token_expired "strava" w2 = (Raise TypeError, tick w2) ∧
      get_valid_access_token default_settings "strava" w2 = (Raise TypeError, tick w2) ∧
      posts (tick w2) = posts w2 ∧ refresh_calls (tick w2) = refresh_calls w2.
Proof.
  apply (non_numeric_expires_at_poisons_the_record default_settings "strava"
           token_data_with_text_expiry (JStr "access-3") (JStr "refresh-3")
           (JStr "tomorrow") first_login_world); by_eval.
Defined.

Lemma returned_token_is_the_stored_one_witness :
  ∃ rec,
    stored (snd (get_valid_access_token default_settings "strava" expiring_world))
      !! "strava" = Some rec ∧
    rec !! "access_token" = Some (JStr "access-2").
Proof.
  apply (returned_token_is_the_stored_one default_settings "strava" expiring_world
           (JStr "access-2")
           (snd (get_valid_access_token default_settings "strava" expiring_world))).
  by_eval.
Defined.

Lemma exchange_upstream_failure_witness :
  ∃ w',
    exchange_code_for_tokens default_settings "strava" "code-1" failing_world =
      (Raise (HTTPStatusError 503), w') ∧
    posts w' =
      posts failing_world ++
      [exchange_request (strava_cfg default_settings) "code-1"
         (redirect_uri_for default_settings "strava")] ∧
    store_file w' = store_file failing_world.
Proof.
  apply (exchange_upstream_failure default_settings "strava" "code-1"
           (strava_cfg default_settings) failing_world 503 None); by_eval.
Defined.

Lemma refresh_upstream_failure_witness :
  ∃ w',
    refresh_tokens default_settings "strava" failing_world =
      (Raise (HTTPStatusError 503), w') ∧
    posts w' =
      posts failing_world ++
      [refresh_request (strava_cfg default_settings) (JStr "refresh-1")] ∧
    stored w' !! "strava" = Some sample_record ∧
    store_file w' = store_file failing_world.
Proof.
  apply (refresh_upstream_failure default_settings "strava" (strava_cfg default_settings)
           failing_world sample_record (JStr "refresh-1") 503 None); by_eval.
Defined.

Lemma exchange_without_refresh_token_stores_nothing_witness :
  ∃ e w',
    exchange_code_for_tokens default_settings "strava" "code-1" tokenless_login_world =
      (Raise e, w') ∧
    (e = TypeError ∨ e = KeyError "access_token" ∨ e = KeyError "refresh_token") ∧
    posts w' =
      posts tokenless_login_world ++
      [exchange_request (strava_cfg default_settings) "code-1"
         (redirect_uri_for default_settings "strava")] ∧
    store_file w' = store_file tokenless_login_world.
Proof.
  apply (exchange_without_refresh_token_stores_nothing default_settings "strava" "code-1"
           (strava_cfg default_settings) tokenless_login_world 200
           answer_without_refresh_token); by_eval.
Defined.

Lemma refresh_needs_usable_refresh_token_witness :
  ∃ w',
    refresh_tokens default_settings "strava" spent_world =
      (Raise (ValueError (no_refresh_token_msg "strava")), w') ∧
    posts w' = posts spent_world ∧ store_file w' = store_file spent_world.
Proof.
  apply (refresh_needs_usable_refresh_token default_settings "strava"
           (strava_cfg default_settings) spent_world); [by_eval|].
  intros tokens R Hs Hr. vm_compute in Hs. injection Hs as <-.
  vm_compute in Hr. injection Hr as <-. reflexivity.
Defined.

Lemma falsy_refresh_token_in_answer_locks_out_witness :
  (∃ rec,
     stored (snd (refresh_tokens default_settings "strava" nulling_world)) !! "strava" =
       Some rec ∧
     rec !! "refresh_token" = Some JNull) ∧
  ∀ w2,
    stored w2 !! "strava" =
      stored (snd (refresh_tokens default_settings "strava" nulling_world)) !! "strava" →
    refresh_tokens default_settings "strava" w2 =
      (Raise (ValueError (no_refresh_token_msg "strava")), log_refresh "strava" w2).
Proof.
  apply (falsy_refresh_token_in_answer_locks_out default_settings "strava"
           (strava_cfg default_settings) nulling_world sample_record (JStr "refresh-1")
           200 answer_with_null_refresh_token JNull
           (<["expires_at" := JNum 8600]> answer_with_null_refresh_token)
           (snd (refresh_tokens default_settings "strava" nulling_world))); by_eval.
Defined.

Lemma refreshed_token_is_served_next_witness :
  ∃ w1,
    get_valid_access_token default_settings "strava" expiring_world =
      (Ok (JStr "access-2"), w1) ∧
    get_valid_access_token default_settings "strava" w1 = (Ok (JStr "access-2"), tick w1) ∧
    posts (tick w1) =
      posts expiring_world ++
      [refresh_request (strava_cfg default_settings) (JStr "refresh-1")].
Proof.
  apply (refreshed_token_is_served_next default_settings "strava"
           (strava_cfg default_settings) expiring_world sample_record (JNum 1000) 1000
           (JStr "refresh-1") 200 answer_with_refresh_token (JStr "access-2")
           (JNum 3600) 3600); try by_eval.
  q_le.
Defined.

Lemma redirect_uri_is_shared_witness :
  get_authorize_url default_settings "strava" first_login_world =
    (Ok (auth_url (strava_cfg default_settings) +:+ "?client_id=" +:+
         client_id (strava_cfg default_settings) () +:+
         "&redirect_uri=" +:+
         (app_base_url default_settings +:+ "/auth/" +:+ "strava" +:+ "/callback") +:+
         "&response_type=code&scope=" +:+ scopes (strava_cfg default_settings)),
     first_login_world) ∧
  ∃ req,
    posts (snd (exchange_code_for_tokens default_settings "strava" "code-1"
                  first_login_world)) = posts first_login_world ++ [req] ∧
    req_url req = token_url (strava_cfg default_settings) ∧
    ("redirect_uri",
     JStr (app_base_url default_settings +:+ "/auth/" +:+ "strava" +:+ "/callback"))
      ∈ req_data req ∧
    ("code", JStr "code-1") ∈ req_data req ∧
    ("grant_type", JStr "authorization_code") ∈ req_data req.
Proof.
  apply (redirect_uri_is_shared default_settings "strava" "code-1"
           (strava_cfg default_settings) first_login_world).
  by_eval.
Defined.

Lemma routes_reject_unknown_provider_witness :
  login default_settings "garmin" garmin_world =
    (Raise (HTTPException 400 ("Unknown provider: " +:+ "garmin")), garmin_world) ∧
  callback default_settings plain_str_exn "garmin" (Some "code-1") None garmin_world =
    (Raise (HTTPException 400 ("Unknown provider: " +:+ "garmin")), garmin_world) ∧
  provider_status default_settings "garmin" garmin_world =
    (Raise (HTTPException 400 ("Unknown provider: " +:+ "garmin")), garmin_world) ∧
  logout "garmin" garmin_world =
    (Raise (HTTPException 400 ("Unknown provider: " +:+ "garmin")), garmin_world).
Proof.
  apply (routes_reject_unknown_provider default_settings plain_str_exn "garmin"
           (Some "code-1") None garmin_world); discriminate.
Defined.

Lemma callback_early_exits_witness :
  (∀ code err, err ≠ "" →
     callback default_settings plain_str_exn "strava" code (Some err) first_login_world =
       (Ok {[ "status" := JStr "error"; "provider" := JStr "strava";
              "detail" := JStr err ]}, first_login_world)) ∧
  (∀ code error, param_truthy error = false → param_truthy code = false →
     callback default_settings plain_str_exn "strava" code error first_login_world =
       (Raise (HTTPException 400 "No authorization code received"), first_login_world)).
Proof.
  apply (callback_early_exits default_settings plain_str_exn "strava" first_login_world).
  left. reflexivity.
Defined.

Lemma callback_raises_only_http_errors_witness :
  ∃ status detail,
    HTTPException 500 "Token exchange failed: error" = HTTPException status detail ∧
    (status = 400 ∨ status = 500).
Proof.
  apply (callback_raises_only_http_errors default_settings plain_str_exn "strava"
           (Some "code-1") None failing_world
           (HTTPException 500 "Token exchange failed: error")
           (snd (callback default_settings plain_str_exn "strava" (Some "code-1") None
                   failing_world))).
  by_eval.
Defined.

Lemma callback_success_means_stored_witness :
  ∃ s rec,
    stored (snd (callback default_settings plain_str_exn "strava" (Some "code-1") None
                   first_login_world)) !! "strava" = Some rec ∧
    rec !! "access_token" = Some (JStr s) ∧
    ({[ "status" := JStr "success"; "provider" := JStr "strava";
        "message" := JStr "Successfully authenticated with strava!";
        "token_preview" := JStr "access-2..." ]} : jdict) !! "token_preview" =
      Some (JStr (String.substring 0 15 s +:+ "...")).
Proof.
  apply (callback_success_means_stored default_settings plain_str_exn "strava"
           (Some "code-1") None first_login_world
           {[ "status" := JStr "success"; "provider" := JStr "strava";
              "message" := JStr "Successfully authenticated with strava!";
              "token_preview" := JStr "access-2..." ]}
           (snd (callback default_settings plain_str_exn "strava" (Some "code-1") None
                   first_login_world))); by_eval.
Defined.

Lemma callback_fails_after_storing_witness :
  ∃ w',
    callback default_settings plain_str_exn "strava" (Some "code-1") None
      numeric_login_world =
      (Raise (HTTPException 500 ("Token exchange failed: " +:+ plain_str_exn TypeError)),
       w') ∧
    stored w' !! "strava" =
      Some (token_record (JNum 42) (JStr "refresh-2")
              (default (JNum 0) (answer_with_numeric_token !! "expires_at"))).
Proof.
  apply (callback_fails_after_storing default_settings plain_str_exn "strava"
           (strava_cfg default_settings) "code-1" numeric_login_world 200
           answer_with_numeric_token 42 (JStr "refresh-2"));
    try by_eval.
  discriminate.
Defined.

Lemma provider_status_never_raises_witness :
  ∃ d w',
    provider_status default_settings "strava" expiring_world = (Ok d, w') ∧
    d !! "provider" = Some (JStr "strava") ∧
    if opt_dict_truthy (stored expiring_world !! "strava") then
      w' = snd (get_valid_access_token default_settings "strava" expiring_world) ∧
      match fst (get_valid_access_token default_settings "strava" expiring_world) with
      | Ok _ => d !! "authenticated" = Some (JBool true) ∧
                d !! "message" = Some (JStr "Connected")
      | Raise _ => d !! "authenticated" = Some (JBool false) ∧
                   d !! "message" = Some (JStr "Token expired, re-auth needed")
      end
    else
      w' = expiring_world ∧ d !! "authenticated" = Some (JBool false) ∧
      d !! "message" = Some (JStr "Not connected").
Proof.
  apply (provider_status_never_raises default_settings "strava" expiring_world).
  left. reflexivity.
Defined.

Lemma logout_then_status_not_connected_witness :
  ∃ w1,
    logout "strava" valid_world =
      (Ok {[ "provider" := JStr "strava"; "message" := JStr "Tokens removed" ]}, w1) ∧
    posts w1 = posts valid_world ∧
    stored w1 = delete "strava" (stored valid_world) ∧
    provider_status default_settings "strava" w1 =
      (Ok {[ "provider" := JStr "strava"; "authenticated" := JBool false;
             "message" := JStr "Not connected" ]}, w1).
Proof.
  apply (logout_then_status_not_connected default_settings "strava" valid_world).
  left. reflexivity.
Defined.

Lemma sample_session_is_valid n :
  (clock (auth_world paging_world) n <= inject_Z (1000 - 300))%Q.
Proof. q_le. Qed.

Lemma sample_cutoff_is_defined (days : Z) t : ∃ after, epoch_cutoff t days = Ok after.
Proof. eexists. reflexivity. Qed.

Lemma full_page_is_full : Forall (λ p : list jval, (200 ≤ length p)%nat) [full_page].
Proof. repeat constructor. Qed.

Lemma pagination_collects_every_page_witness :
  ∃ aw',
    get_all_activities default_settings epoch_cutoff 5 7 paging_world =
      (Ok (Some (concat [full_page] ++ short_page)), aw') ∧
    (∃ reqs, gets aw' = gets paging_world ++ reqs ∧ length reqs = S (length [full_page]) ∧
       ∀ i req, reqs !! i = Some req →
         get_bearer req = JStr "access-1" ∧
         ∃ after, get_params req =
           [ ("after", JNum after); ("per_page", JNum 200);
             ("page", JNum (1 + Z.of_nat i)) ]) ∧
    posts (auth_world aw') = posts (auth_world paging_world) ∧
    store_file (auth_world aw') = store_file (auth_world paging_world).
Proof.
  apply (pagination_collects_every_page default_settings epoch_cutoff 7 sample_record
           (JStr "access-1") (JNum 1000) 1000 eq_refl eq_refl eq_refl
           (sample_cutoff_is_defined 7) [full_page] short_page 5%nat paging_world).
  - by_eval.
  - apply sample_session_is_valid.
  - apply full_page_is_full.
  - simpl. lia.
  - intros [|i] p Hp; simpl in Hp; [injection Hp as <-; reflexivity|discriminate].
  - reflexivity.
  - simpl. lia.
Defined.

Lemma pagination_fails_as_a_whole_witness :
  ∃ aw',
    get_all_activities default_settings epoch_cutoff 5 7 breaking_world =
      (Raise (HTTPStatusError 500), aw') ∧
    length (gets aw') = (length (gets breaking_world) + S (length [full_page]))%nat.
Proof.
  apply (pagination_fails_as_a_whole default_settings epoch_cutoff 7 sample_record
           (JStr "access-1") (JNum 1000) 1000 eq_refl eq_refl eq_refl
           (sample_cutoff_is_defined 7) [full_page] 500 None 5%nat breaking_world).
  - by_eval.
  - apply sample_session_is_valid.
  - apply full_page_is_full.
  - intros [|i] p Hp; simpl in Hp; [injection Hp as <-; reflexivity|discriminate].
  - reflexivity.
  - reflexivity.
  - simpl. lia.
Defined.

Lemma pagination_goes_on_while_pages_are_full_witness :
  ∃ aw',
    get_all_activities default_settings epoch_cutoff
      (length [full_page; full_page; full_page]) 7 endless_world = (Ok None, aw') ∧
    length (gets aw') =
      (length (gets endless_world) + length [full_page; full_page; full_page])%nat.
Proof.
  apply (pagination_goes_on_while_pages_are_full default_settings epoch_cutoff 7
           sample_record (JStr "access-1") (JNum 1000) 1000 eq_refl eq_refl eq_refl
           (sample_cutoff_is_defined 7) [full_page; full_page; full_page] endless_world).
  - by_eval.
  - apply sample_session_is_valid.
  - repeat constructor.
  - intros i p Hp. simpl.
    destruct i as [|[|[|i]]]; simpl in Hp; try discriminate; by injection Hp as <-.
Defined.

Lemma listing_needs_a_token_witness :
  ∃ aw',
    get_all_activities default_settings epoch_cutoff 1 7 logged_out_api_world =
      (Raise (ValueError (no_refresh_token_msg "strava")), aw') ∧
    gets aw' = gets logged_out_api_world ∧
    posts (auth_world aw') = posts (auth_world logged_out_api_world) ∧
    store_file (auth_world aw') = store_file (auth_world logged_out_api_world).
Proof.
  eapply (listing_needs_a_token default_settings epoch_cutoff 0 7 logged_out_api_world).
  - by_eval.
  - reflexivity.
Defined.
